(** * data-day-translation: the translation backends and the comparison driver

    A shallow embedding of [src/model.py] and [src/main.py].

    Python values that cross the JSON boundary are an inductive type, a Python
    [dict] used as a code table is a [gmap], instances live in a store that is
    threaded through every call, and everything outside the repository (the
    boto3 clients, EasyNMT, the [json] module, the clock, the Streamlit
    widgets) is an oracle that sees the history of the run so far. *)

From Stdlib Require Import Ascii String.
From stdpp Require Import base option list strings pretty gmap.

Set Warnings "-register-all".

Local Open Scope string_scope.
Local Open Scope list_scope.
Local Open Scope stdpp_scope.

(** ** Python values and exceptions *)

Module Py.

(** What [json.loads] can return and what [json.dumps] accepts.  A [dict] keeps
    its insertion order, so it is an association list; a float is kept by its
    literal, no claim computes with one. *)
Inductive pyval : Type :=
  | PNone
  | PBool (b : bool)
  | PInt (z : Z)
  | PFloat (literal : string)
  | PStr (s : string)
  | PList (items : list pyval)
  | PDict (entries : list (string * pyval)).

Inductive exn : Type :=
  | KeyError (key : pyval)
  | IndexError
  | TypeError
  | AttributeError (name : string)
  | JSONDecodeError
  | InvocationError (reason : string).

(** Text is held as its UTF-8 bytes; [s[0]] is the first code point, that is
    the first byte and the continuation bytes (10xxxxxx) after it. *)
Definition is_continuation (a : ascii) : bool :=
  let n := nat_of_ascii a in (128 <=? n)%nat && (n <? 192)%nat.

Fixpoint continuation (s : string) : string :=
  match s with
  | String a r => if is_continuation a then String a (continuation r) else EmptyString
  | EmptyString => EmptyString
  end.

Definition first_char (s : string) : option string :=
  match s with
  | String a r => Some (String a (continuation r))
  | EmptyString => None
  end.

Fixpoint assoc (k : string) (d : list (string * pyval)) : option pyval :=
  match d with
  | [] => None
  | (k', v) :: d' => if decide (k' = k) then Some v else assoc k d'
  end.

(** [v[0]] *)
Definition getitem_0 (v : pyval) : exn + pyval :=
  match v with
  | PList (x :: _) => inr x
  | PList [] => inl IndexError
  | PDict _ => inl (KeyError (PInt 0))
  | PStr s => match first_char s with Some c => inr (PStr c) | None => inl IndexError end
  | _ => inl TypeError
  end.

(** [v[k]] for a string literal [k] *)
Definition getitem_str (v : pyval) (k : string) : exn + pyval :=
  match v with
  | PDict d => match assoc k d with Some x => inr x | None => inl (KeyError (PStr k)) end
  | _ => inl TypeError
  end.

End Py.
Export Py.

(** ** The language registry ([class Language]) *)

Module Language.

Definition spanish : string := "Spanish".
Definition italian : string := "Italian".
Definition portugees : string := "Portugees".
Definition catalan : string := "Catalan".
Definition galician : string := "Galician".

Definition registry : list string :=
  [spanish; italian; portugees; catalan; galician].

End Language.

Definition not_supported : pyval := PStr "Language not supported".

(** ** The world: instances, and what the run has done so far *)

(** Every call that leaves the repository, in the order it was made. *)
Inductive event : Type :=
  | EvBotoClient (service : string)
  | EvEasyNMT (name : string)
  | EvInvokeEndpoint (client EndpointName Body ContentType Accept : string)
  | EvTranslateText (client Text SourceLanguageCode TargetLanguageCode : string)
  | EvEasyNMTTranslate (model text source_lang target_lang : string)
  | EvTime
  | EvSetPageConfig (layout : string)
  | EvTitle (body : string)
  | EvSelectbox (label : string) (options : list string) (index : nat)
  | EvTextArea (label value : string)
  | EvHeader (body : string)
  | EvSubheader (body : pyval)
  | EvWrite (body : string).

Inductive cls : Type :=
  | HelsinkiItc
  | FacebookLocalMbart
  | FacebookMbart
  | AwsTranslate.

(** An instance is its class and its attributes; an attribute that was never
    assigned is [None] and reading it raises [AttributeError]. *)
Record instance : Type := Instance {
  class_of : cls;
  endpoint_name : option string;
  client : option string;
  model : option string;
  lang2iso : option (gmap string string);
}.

Abbreviation loc := nat.

Record world : Type := World {
  heap : list instance;
  trace : list event;
}.

(** What the collaborators answer.  Each oracle is given the history of the
    run, so a service may answer the same request differently each time. *)
Inductive reply (A : Type) : Type :=
  | Answer (a : A)
  | Failure (reason : string).
Arguments Answer {A} a.
Arguments Failure {A} reason.

Class Externals : Type := {
  pyfloat : Type;
  (** boto3.client(service): the handle *)
  boto3_client : list event → string → reply string;
  (** EasyNMT(name): the handle *)
  easynmt_load : list event → string → reply string;
  (** client.invoke_endpoint(...)['Body'].read().decode('utf-8') *)
  invoke_endpoint : list event → string → string → string → string → string → reply string;
  (** client.translate_text(...) *)
  translate_text : list event → string → string → string → string → reply pyval;
  (** model.translate(text, source_lang=, target_lang=) *)
  easynmt_translate : list event → string → string → string → string → reply pyval;
  json_dumps : pyval → string;
  json_loads : string → option pyval;
  time_time : list event → pyfloat;
  (** str(round(t1 - t0, 3)) *)
  elapsed_repr : pyfloat → pyfloat → string;
  selectbox_choice : list event → string → list string → nat → string;
  text_area_value : list event → string → string → string;
}.

(** ** A state and exception monad *)

Inductive outcome (A : Type) : Type :=
  | Ret (a : A)
  | Raise (e : exn).
Arguments Ret {A} a.
Arguments Raise {A} e.

Definition M (A : Type) : Type := world → outcome A * world.

Definition ret {A} (a : A) : M A := λ w, (Ret a, w).
Definition raise {A} (e : exn) : M A := λ w, (Raise e, w).
Definition bind {A B} (m : M A) (k : A → M B) : M B :=
  λ w, match m w with
       | (Ret a, w') => k a w'
       | (Raise e, w') => (Raise e, w')
       end.

Declare Scope py_scope.
Delimit Scope py_scope with py.
Notation "x <- m ; k" := (bind m (λ x, k))
  (at level 100, m at next level, right associativity) : py_scope.
Notation "m ;; k" := (bind m (λ _, k))
  (at level 100, right associativity) : py_scope.
Local Open Scope py_scope.

(** [try: body except KeyError: handler]; what the body did before it raised
    stays done. *)
Definition try_except_KeyError {A} (body handler : M A) : M A :=
  λ w, match body w with
       | (Raise (KeyError _), w') => handler w'
       | r => r
       end.

Definition lift {A} (r : exn + A) : M A :=
  match r with inl e => raise e | inr a => ret a end.

Definition emit (e : event) : M unit :=
  λ w, (Ret tt, World (heap w) (trace w ++ [e])).

Definition answer {A} (r : reply A) : M A :=
  match r with
  | Answer a => ret a
  | Failure why => raise (InvocationError why)
  end.

(** An external call: the oracle is asked with the history before the call,
    and the call is recorded whether or not it fails. *)
Definition external {A} (e : event) (oracle : list event → reply A) : M A :=
  λ w, (emit e ;; answer (oracle (trace w))) w.

(** *** Attributes *)

Definition getattr {A} (name : string) (field : instance → option A) (self : loc) : M A :=
  λ w, match heap w !! self ≫= field with
       | Some a => (Ret a, w)
       | None => (Raise (AttributeError name), w)
       end.

Definition setattr (self : loc) (f : instance → instance) : M unit :=
  λ w, (Ret tt, World (alter f self (heap w)) (trace w)).

Definition set_endpoint_name (v : string) (o : instance) : instance :=
  Instance (class_of o) (Some v) (client o) (model o) (lang2iso o).
Definition set_client (v : string) (o : instance) : instance :=
  Instance (class_of o) (endpoint_name o) (Some v) (model o) (lang2iso o).
Definition set_model (v : string) (o : instance) : instance :=
  Instance (class_of o) (endpoint_name o) (client o) (Some v) (lang2iso o).
Definition set_lang2iso (v : gmap string string) (o : instance) : instance :=
  Instance (class_of o) (endpoint_name o) (client o) (model o) (Some v).

(** [cls.__new__]: a fresh instance with no attribute yet *)
Definition new (c : cls) : M loc :=
  λ w, (Ret (length (heap w)), World (heap w ++ [Instance c None None None None]) (trace w)).

(** [d[k]] on a code table *)
Definition dict_getitem (d : gmap string string) (k : string) : M string :=
  match d !! k with
  | Some v => ret v
  | None => raise (KeyError (PStr k))
  end.

(** ** [src/model.py] *)

Section Model.
Context `{Externals}.

(** The code tables, as the three [__init__] bodies write them. *)
Definition HelsinkiItc_lang2iso : gmap string string :=
  <[Language.spanish := "spa"]> (
  <[Language.italian := "ita"]> (
  <[Language.portugees := "por"]> (
  <[Language.catalan := "cat"]> (
  <[Language.galician := "glg"]> ∅)))).

Definition FacebookLocalMbart_lang2iso : gmap string string :=
  <[Language.spanish := "es"]> (
  <[Language.italian := "it"]> (
  <[Language.portugees := "pt"]> ∅)).

Definition FacebookMbart_lang2iso : gmap string string :=
  <[Language.spanish := "es_XX"]> (
  <[Language.italian := "it_IT"]> (
  <[Language.portugees := "pt_XX"]> ∅)).

Definition AwsTranslate_lang2iso : gmap string string :=
  <[Language.spanish := "es"]> (
  <[Language.italian := "it"]> (
  <[Language.portugees := "pt-PT"]> (
  <[Language.catalan := "ca"]> ∅))).

(** [TranslateModel.__init__] *)
Definition TranslateModel_init (self : loc) (name : string) : M unit :=
  setattr self (set_endpoint_name name) ;;
  c <- external (EvBotoClient "sagemaker-runtime")
         (λ h, boto3_client h "sagemaker-runtime") ;
  setattr self (set_client c).

(** [TranslateModel._invoke_sagemaker_endpoint] *)
Definition _invoke_sagemaker_endpoint (self : loc) (body : string) : M pyval :=
  c <- getattr "client" client self ;
  n <- getattr "endpoint_name" endpoint_name self ;
  text <- external (EvInvokeEndpoint c n body "application/json" "application/json")
            (λ h, invoke_endpoint h c n body "application/json" "application/json") ;
  match json_loads text with
  | Some v => ret v
  | None => raise JSONDecodeError
  end.

Definition HelsinkiItc_init (self : loc) (name : string) : M unit :=
  TranslateModel_init self name ;;
  setattr self (set_lang2iso HelsinkiItc_lang2iso).

Definition HelsinkiItc_predict (self : loc) (text source_lang target_lang : string)
    : M pyval :=
  d <- getattr "lang2iso" lang2iso self ;
  target_iso <- dict_getitem d target_lang ;
  let body := json_dumps (PDict [("inputs", PStr (">>" +:+ target_iso +:+ "<< " +:+ text))]) in
  prediction <- _invoke_sagemaker_endpoint self body ;
  first <- lift (getitem_0 prediction) ;
  lift (getitem_str first "translation_text").

Definition FacebookLocalMbart_init (self : loc) (name : string) : M unit :=
  m <- external (EvEasyNMT name) (λ h, easynmt_load h name) ;
  setattr self (set_model m) ;;
  TranslateModel_init self name ;;
  setattr self (set_lang2iso FacebookLocalMbart_lang2iso).

(** The guard the three guarded [predict] bodies open with:
    [try: source_iso = ...; target_iso = ... except KeyError: return ...].
    [None] is the early return taken in the handler. *)
Definition lookup_codes (self : loc) (source_lang target_lang : string)
    : M (option (string * string)) :=
  try_except_KeyError
    (d <- getattr "lang2iso" lang2iso self ;
     source_iso <- dict_getitem d source_lang ;
     d' <- getattr "lang2iso" lang2iso self ;
     target_iso <- dict_getitem d' target_lang ;
     ret (Some (source_iso, target_iso)))
    (ret None).

Definition FacebookLocalMbart_predict (self : loc) (text source_lang target_lang : string)
    : M pyval :=
  codes <- lookup_codes self source_lang target_lang ;
  match codes with
  | None => ret not_supported
  | Some (source_iso, target_iso) =>
      m <- getattr "model" model self ;
      external (EvEasyNMTTranslate m text source_iso target_lang)
        (λ h, easynmt_translate h m text source_iso target_lang)
  end.

Definition FacebookMbart_init (self : loc) (name : string) : M unit :=
  TranslateModel_init self name ;;
  setattr self (set_lang2iso FacebookMbart_lang2iso).

Definition FacebookMbart_predict (self : loc) (text source_lang target_lang : string)
    : M pyval :=
  codes <- lookup_codes self source_lang target_lang ;
  match codes with
  | None => ret not_supported
  | Some (source_iso, target_iso) =>
      let body := json_dumps (PDict [
        ("inputs", PList [PStr text]);
        ("parameters", PDict [("src_lang", PStr source_iso);
                              ("tgt_lang", PStr target_iso)])]) in
      prediction <- _invoke_sagemaker_endpoint self body ;
      first <- lift (getitem_0 prediction) ;
      lift (getitem_str first "translation_text")
  end.

Definition AwsTranslate_init (self : loc) (name : string) : M unit :=
  TranslateModel_init self name ;;
  c <- external (EvBotoClient "translate") (λ h, boto3_client h "translate") ;
  setattr self (set_client c) ;;
  setattr self (set_lang2iso AwsTranslate_lang2iso).

Definition AwsTranslate_predict (self : loc) (text source_lang target_lang : string)
    : M pyval :=
  codes <- lookup_codes self source_lang target_lang ;
  match codes with
  | None => ret not_supported
  | Some (source_iso, target_iso) =>
      c <- getattr "client" client self ;
      response <- external (EvTranslateText c text source_iso target_iso)
                    (λ h, translate_text h c text source_iso target_iso) ;
      lift (getitem_str response "TranslatedText")
  end.

(** The default [endpoint_name] of each class. *)
Definition default_endpoint_name (c : cls) : string :=
  match c with
  | HelsinkiItc => "helsinki-nlp-opus-mt-itc-itc"
  | FacebookLocalMbart => "mbart50_m2m"
  | FacebookMbart => "facebook-mbart-large-50-many-to-many-mmt"
  | AwsTranslate => "aws-translate"
  end.

Definition init (c : cls) : loc → string → M unit :=
  match c with
  | HelsinkiItc => HelsinkiItc_init
  | FacebookLocalMbart => FacebookLocalMbart_init
  | FacebookMbart => FacebookMbart_init
  | AwsTranslate => AwsTranslate_init
  end.

(** [C()]: allocate, then run the class's [__init__] with its default
    [endpoint_name]. *)
Definition construct (c : cls) : M loc :=
  self <- new c ;
  init c self (default_endpoint_name c) ;;
  ret self.

Definition method_predict (c : cls) : loc → string → string → string → M pyval :=
  match c with
  | HelsinkiItc => HelsinkiItc_predict
  | FacebookLocalMbart => FacebookLocalMbart_predict
  | FacebookMbart => FacebookMbart_predict
  | AwsTranslate => AwsTranslate_predict
  end.

(** [model.predict(text=, source_lang=, target_lang=)]: the method of the
    instance's class. *)
Definition predict (self : loc) (text source_lang target_lang : string) : M pyval :=
  λ w, match heap w !! self with
       | Some o => method_predict (class_of o) self text source_lang target_lang w
       | None => (Raise (AttributeError "predict"), w)
       end.

End Model.

(** ** [src/main.py] *)

Section Main.
Context `{Externals}.

Definition st_set_page_config (layout : string) : M unit := emit (EvSetPageConfig layout).
Definition st_title (body : string) : M unit := emit (EvTitle body).
Definition st_header (body : string) : M unit := emit (EvHeader body).
Definition st_subheader (body : pyval) : M unit := emit (EvSubheader body).
Definition st_write (body : string) : M unit := emit (EvWrite body).

Definition st_selectbox (label : string) (options : list string) (index : nat) : M string :=
  λ w, (emit (EvSelectbox label options index) ;;
        ret (selectbox_choice (trace w) label options index)) w.

Definition st_text_area (label value : string) : M string :=
  λ w, (emit (EvTextArea label value) ;;
        ret (text_area_value (trace w) label value)) w.

Definition time_now : M pyfloat :=
  λ w, (emit EvTime ;; ret (time_time (trace w))) w.

Definition load_models : M (list loc) :=
  a <- construct HelsinkiItc ;
  b <- construct FacebookMbart ;
  c <- construct AwsTranslate ;
  ret [a; b; c].

Definition default_text : string :=
  "Particular. Vendo Scooter comprada nueva en 2010, " +:+
  "solo un propietario, excelente estado, " +:+
  "con todas sus correspondientes revisiones y Libro de Revisiones, " +:+
  "ultima revisi√≥n el pasado 24 ABR 2023, con zapata freno trasero nuevo.".

(** The body of [for model in models:] *)
Definition compare_one (text_input source_lang target_lang : string) (model : loc)
    : M unit :=
  name <- getattr "endpoint_name" endpoint_name model ;
  st_header ("Model " +:+ name) ;;
  start_time <- time_now ;
  translation <- predict model text_input source_lang target_lang ;
  st_subheader translation ;;
  end_time <- time_now ;
  st_write ("--- " +:+ elapsed_repr start_time end_time +:+ " seconds ---").

Fixpoint for_each {A} (xs : list A) (body : A → M unit) : M unit :=
  match xs with
  | [] => ret tt
  | x :: xs' => body x ;; for_each xs' body
  end.

Definition compare (models : list loc) (text_input source_lang target_lang : string)
    : M unit :=
  for_each models (compare_one text_input source_lang target_lang).

Definition main : M unit :=
  st_set_page_config "wide" ;;
  st_title "Data Day: Translation" ;;
  let languages := Language.registry in
  source_lang <- st_selectbox "Target" languages 0 ;
  target_lang <- st_selectbox "Target"
                   (filter (λ lang, lang ≠ source_lang) languages) 0 ;
  models <- load_models ;
  text_input <- st_text_area "Text to translate" default_text ;
  compare models text_input source_lang target_lang.

End Main.

(** ** The vocabulary of the statements

    What the claims speak of: what a run may touch, the instances as
    [__init__] leaves them, what a backend returns given what its service
    answered, the entries of the driver's output and the page they are read
    from, and the table of section 6. *)

Section Vocabulary.
Context `{Externals}.

(** [m] leaves the instances alone and only appends events that satisfy [P]. *)
Definition emits {A} (P : event → Prop) (m : M A) : Prop :=
  ∀ w, ∃ evs, snd (m w) = World (heap w) (trace w ++ evs) ∧ Forall P evs.

(** [m] changes nothing at all. *)
Definition silent {A} (m : M A) : Prop := ∀ w, snd (m w) = w.

(** The table each class's [__init__] assigns to [self.lang2iso]. *)
Definition code_map (c : cls) : gmap string string :=
  match c with
  | HelsinkiItc => HelsinkiItc_lang2iso
  | FacebookLocalMbart => FacebookLocalMbart_lang2iso
  | FacebookMbart => FacebookMbart_lang2iso
  | AwsTranslate => AwsTranslate_lang2iso
  end.

(** The classes [load_models] instantiates, in its order. *)
Definition configured : list cls := [HelsinkiItc; FacebookMbart; AwsTranslate].

(** [self] is an instance of [c] as [c()] leaves it. *)
Definition constructed (c : cls) (self : loc) (w : world) : Prop :=
  ∃ handle,
    heap w !! self =
      Some (Instance c (Some (default_endpoint_name c)) (Some handle)
              (if c is FacebookLocalMbart then Some (default_endpoint_name c) else None)
              (Some (code_map c))).

(** What the guard computes: both codes, or the early return. *)
Definition codes (d : gmap string string) (source_lang target_lang : string)
    : option (string * string) :=
  match d !! source_lang, d !! target_lang with
  | Some source_iso, Some target_iso => Some (source_iso, target_iso)
  | _, _ => None
  end.

(** The calls that reach a translation service. *)
Definition remote_call (e : event) : Prop :=
  match e with
  | EvInvokeEndpoint _ _ _ _ _ | EvTranslateText _ _ _ _
  | EvEasyNMTTranslate _ _ _ _ => True
  | _ => False
  end.

Definition json_content : string := "application/json".

(** [prediction[0]["translation_text"]] *)
Definition translation_of (prediction : pyval) : exn + pyval :=
  match getitem_0 prediction with
  | inl e => inl e
  | inr first => getitem_str first "translation_text"
  end.

Definition raised_or_returned (r : exn + pyval) : outcome pyval :=
  match r with inl e => Raise e | inr v => Ret v end.

(** What a backend that goes through the shared helper returns, given what the
    endpoint answered. *)
Definition endpoint_outcome (r : reply string) : outcome pyval :=
  match r with
  | Failure why => Raise (InvocationError why)
  | Answer text =>
      match json_loads text with
      | None => Raise JSONDecodeError
      | Some prediction => raised_or_returned (translation_of prediction)
      end
  end.

(** What [AwsTranslate.predict] returns, given what the service answered. *)
Definition service_outcome (r : reply pyval) : outcome pyval :=
  match r with
  | Failure why => Raise (InvocationError why)
  | Answer response => raised_or_returned (getitem_str response "TranslatedText")
  end.

Definition record (e : event) (w : world) : world :=
  World (heap w) (trace w ++ [e]).

Definition HelsinkiItc_body (target_iso text : string) : string :=
  json_dumps (PDict [("inputs", PStr (">>" +:+ target_iso +:+ "<< " +:+ text))]).

Definition FacebookMbart_body (source_iso target_iso text : string) : string :=
  json_dumps (PDict [
    ("inputs", PList [PStr text]);
    ("parameters", PDict [("src_lang", PStr source_iso); ("tgt_lang", PStr target_iso)])]).

(** One entry of the driver's output: backend name, result, elapsed seconds. *)
Definition entry : Type := string * pyval * string.

Definition header_of (name : string) : string := "Model " +:+ name.
Definition seconds_line (elapsed : string) : string := "--- " +:+ elapsed +:+ " seconds ---".

(** The world in which [predict] is entered: the header is on the page and
    the clock has been read. *)
Definition started (name : string) (w : world) : world :=
  World (heap w) (trace w ++ [EvHeader (header_of name); EvTime]).

Definition start_time (name : string) (w : world) : pyfloat :=
  time_time (trace w ++ [EvHeader (header_of name)]).

(** The elapsed time the driver writes for a call entered at [w] that left
    [w1] and returned [r]. *)
Definition elapsed (name : string) (w : world) (r : pyval) (w1 : world) : string :=
  elapsed_repr (start_time name w) (time_time (trace w1 ++ [EvSubheader r])).

(** The world after the panel of that call is complete. *)
Definition finished (name : string) (w : world) (r : pyval) (w1 : world) : world :=
  World (heap w1)
    (trace w1 ++ [EvSubheader r; EvTime; EvWrite (seconds_line (elapsed name w r w1))]).

(** The output sequence of section 4.4, as the spec words it: for each backend
    in configuration order, invoke [translate] once, in the world the previous
    one left, and produce (name, result, elapsed seconds). *)
Inductive sequential_run (text source_lang target_lang : string)
    : list loc → world → list entry → world → Prop :=
  | run_done w : sequential_run text source_lang target_lang [] w [] w
  | run_step model models w o name r w1 out w' :
      heap w !! model = Some o →
      endpoint_name o = Some name →
      predict model text source_lang target_lang (started name w) = (Ret r, w1) →
      sequential_run text source_lang target_lang models (finished name w r w1) out w' →
      sequential_run text source_lang target_lang (model :: models) w
        ((name, r, elapsed name w r w1) :: out) w'.

(** What the page shows: a header, then the translation under it, then the
    seconds line make one panel. *)
Fixpoint shown (pending : option (string * option pyval)) (evs : list event)
    : list (string * pyval * string) :=
  match evs with
  | [] => []
  | EvHeader h :: evs' => shown (Some (h, None)) evs'
  | EvSubheader v :: evs' =>
      match pending with
      | Some (h, _) => shown (Some (h, Some v)) evs'
      | None => shown None evs'
      end
  | EvWrite s :: evs' =>
      match pending with
      | Some (h, Some v) => (h, v, s) :: shown None evs'
      | _ => shown pending evs'
      end
  | _ :: evs' => shown pending evs'
  end.

Definition panel_of (e : entry) : string * pyval * string :=
  let '(name, r, seconds) := e in (header_of name, r, seconds_line seconds).

(** The events of a run from [w] to [w']. *)
Definition events_since (w w' : world) : list event :=
  drop (length (trace w)) (trace w').

(** The four widgets [main] draws before it loads the models. *)
Definition setup_events (source_lang : string) : list event :=
  [EvSetPageConfig "wide"; EvTitle "Data Day: Translation";
   EvSelectbox "Target" Language.registry 0;
   EvSelectbox "Target" (filter (λ lang, lang ≠ source_lang) Language.registry) 0].

Definition chosen_source (w : world) : string :=
  selectbox_choice (trace w ++ [EvSetPageConfig "wide"; EvTitle "Data Day: Translation"])
    "Target" Language.registry 0.

Definition chosen_target (w : world) : string :=
  selectbox_choice
    (trace w ++ [EvSetPageConfig "wide"; EvTitle "Data Day: Translation";
                 EvSelectbox "Target" Language.registry 0])
    "Target" (filter (λ lang, lang ≠ chosen_source w) Language.registry) 0.

Definition after_setup (w : world) : world :=
  World (heap w) (trace w ++ setup_events (chosen_source w)).

Definition text_area_event : event := EvTextArea "Text to translate" default_text.

Inductive language : Type := Spanish | Italian | Portuguese | Catalan | Galician.

(** The registry value each row of the table stands for. *)
Definition registry_value (l : language) : string :=
  match l with
  | Spanish => Language.spanish
  | Italian => Language.italian
  | Portuguese => Language.portugees
  | Catalan => Language.catalan
  | Galician => Language.galician
  end.

(** The table as section 6 prints it: Backend A is [HelsinkiItc], Backend B is
    [FacebookMbart], Backend C is [AwsTranslate]; the table has no column for
    [FacebookLocalMbart]. *)
Definition table_section6 (c : cls) (l : language) : option string :=
  match c, l with
  | HelsinkiItc, Spanish => Some "spa"
  | HelsinkiItc, Italian => Some "ita"
  | HelsinkiItc, Portuguese => Some "por"
  | HelsinkiItc, Catalan => Some "cat"
  | HelsinkiItc, Galician => Some "glg"
  | FacebookMbart, Spanish => Some "es_XX"
  | FacebookMbart, Italian => Some "it_IT"
  | FacebookMbart, Portuguese => Some "pt_XX"
  | FacebookMbart, Catalan => None
  | FacebookMbart, Galician => None
  | AwsTranslate, Spanish => Some "es"
  | AwsTranslate, Italian => Some "it"
  | AwsTranslate, Portuguese => Some "pt-PT"
  | AwsTranslate, Catalan => Some "ca"
  | AwsTranslate, Galician => None
  | FacebookLocalMbart, _ => None
  end.

(** A call to [predict]: the instance and the three arguments. *)
Definition call : Type := loc * string * string * string.

(** The world after a sequence of calls to [predict], whatever each of them
    returned or raised. *)
Fixpoint after_calls (calls : list call) (w : world) : world :=
  match calls with
  | [] => w
  | (self, text, source_lang, target_lang) :: calls' =>
      after_calls calls' (snd (predict self text source_lang target_lang w))
  end.

(** The classes whose [predict] opens with the [try ... except KeyError]. *)
Definition guarded : list cls := [FacebookLocalMbart; FacebookMbart; AwsTranslate].

(** The clients [c()] asks boto3 for, in order, for a configured class. *)
Definition creation_events (c : cls) : list event :=
  match c with
  | AwsTranslate => [EvBotoClient "sagemaker-runtime"; EvBotoClient "translate"]
  | _ => [EvBotoClient "sagemaker-runtime"]
  end.

(** [m] sends at most one request to a translation service and does nothing
    else. *)
Definition at_most_one_request {A} (m : M A) : Prop :=
  ∀ w, snd (m w) = w ∨ ∃ e, remote_call e ∧ snd (m w) = record e w.

(** [m] keeps the history and adds to it events that satisfy [P] only. *)
Definition appends {A} (P : event → Prop) (m : M A) : Prop :=
  ∀ w, ∃ evs, trace (snd (m w)) = trace w ++ evs ∧ Forall P evs.

(** The requests for a client. *)
Definition client_request (e : event) : Prop :=
  match e with EvBotoClient _ => True | _ => False end.

Definition anything (e : event) : Prop := True.

Definition is_clock_read (e : event) : bool :=
  match e with EvTime => true | _ => false end.

Definition is_remote_call (e : event) : bool :=
  match e with
  | EvInvokeEndpoint _ _ _ _ _ | EvTranslateText _ _ _ _
  | EvEasyNMTTranslate _ _ _ _ => true
  | _ => false
  end.

Definition count_events (p : event → bool) (evs : list event) : nat :=
  length (List.filter p evs).

End Vocabulary.

(** ** A test double for the collaborators

    Used to run the embedding on concrete inputs.  The serializer is exact on
    values whose text needs no escape; the endpoints answer canned bodies and
    the clock counts the calls made so far. *)

Module Demo.

Definition dq : string := String (ascii_of_nat 34) EmptyString.

Definition quoted (s : string) : string := dq +:+ s +:+ dq.

Fixpoint join (sep : string) (parts : list string) : string :=
  match parts with
  | [] => EmptyString
  | [p] => p
  | p :: ps => p +:+ sep +:+ join sep ps
  end.

Fixpoint dumps (v : pyval) : string :=
  match v with
  | PNone => "null"
  | PBool true => "true"
  | PBool false => "false"
  | PInt z => pretty z
  | PFloat literal => literal
  | PStr s => quoted s
  | PList items => "[" +:+ join ", " (map dumps items) +:+ "]"
  | PDict entries =>
      "{" +:+ join ", " (map (λ kv, quoted (fst kv) +:+ ": " +:+ dumps (snd kv)) entries) +:+ "}"
  end.

Definition ciao : pyval := PList [PDict [("translation_text", PStr "Ciao")]].
Definition ola : pyval := PDict [("TranslatedText", PStr "Olá")].

Definition refusal : pyval := PList [PDict [("translation_text", not_supported)]].

(** Parses the bodies the canned endpoints send. *)
Definition loads (s : string) : option pyval :=
  if decide (s = dumps ciao) then Some ciao
  else if decide (s = dumps refusal) then Some refusal
  else None.

(** The collaborators, given what the endpoint of each name answers. *)
Definition collaborators (endpoint : string → reply string) : Externals := {|
  pyfloat := nat;
  boto3_client _ service := Answer service;
  easynmt_load _ name := Answer name;
  invoke_endpoint _ _ name _ _ _ := endpoint name;
  translate_text _ _ _ _ _ := Answer ola;
  easynmt_translate _ _ _ _ target_lang := Answer (PStr target_lang);
  json_dumps := dumps;
  json_loads := loads;
  time_time h := length h;
  elapsed_repr t0 t1 := pretty (t1 - t0)%nat;
  selectbox_choice _ _ options index := default EmptyString (options !! index);
  text_area_value _ _ value := value;
|}.

(** Every endpoint translates to "Ciao". *)
Definition externals : Externals := collaborators (λ _, Answer (dumps ciao)).

(** The endpoint of [FacebookMbart] is out of reach. *)
Definition mbart_down : Externals :=
  collaborators (λ name,
    if decide (name = "helsinki-nlp-opus-mt-itc-itc") then Answer (dumps ciao)
    else Failure "unreachable").

(** Every endpoint translates to the words of the sentinel. *)
Definition parrot : Externals := collaborators (λ _, Answer (dumps refusal)).

Definition empty : world := World [] [].

(** The three configured instances, at 0, 1 and 2. *)
Definition loaded (E : Externals) : world := snd (@load_models E empty).

(** One [FacebookLocalMbart], at 0. *)
Definition local (E : Externals) : world := snd (@construct E FacebookLocalMbart empty).

(** The instances the constructors build, given the client handle. *)
Definition helsinki (handle : string) : instance :=
  Instance HelsinkiItc (Some "helsinki-nlp-opus-mt-itc-itc") (Some handle) None
    (Some HelsinkiItc_lang2iso).
Definition mbart (handle : string) : instance :=
  Instance FacebookMbart (Some "facebook-mbart-large-50-many-to-many-mmt") (Some handle)
    None (Some FacebookMbart_lang2iso).
Definition aws (handle : string) : instance :=
  Instance AwsTranslate (Some "aws-translate") (Some handle) None
    (Some AwsTranslate_lang2iso).
Definition local_mbart (handle : string) : instance :=
  Instance FacebookLocalMbart (Some "mbart50_m2m") (Some handle) (Some "mbart50_m2m")
    (Some FacebookLocalMbart_lang2iso).

(** The translate service is out of reach; the endpoints translate to "Ciao". *)
Definition service_down : Externals := {|
  pyfloat := nat;
  boto3_client _ service := Answer service;
  easynmt_load _ name := Answer name;
  invoke_endpoint _ _ _ _ _ _ := Answer (dumps ciao);
  translate_text _ _ _ _ _ := Failure "unreachable";
  easynmt_translate _ _ _ _ target_lang := Answer (PStr target_lang);
  json_dumps := dumps;
  json_loads := loads;
  time_time h := length h;
  elapsed_repr t0 t1 := pretty (t1 - t0)%nat;
  selectbox_choice _ _ options index := default EmptyString (options !! index);
  text_area_value _ _ value := value;
|}.

(** boto3 has no credentials for the translate service. *)
Definition no_credentials : Externals := {|
  pyfloat := nat;
  boto3_client _ service :=
    if decide (service = "translate") then Failure "no credentials" else Answer service;
  easynmt_load _ name := Answer name;
  invoke_endpoint _ _ _ _ _ _ := Answer (dumps ciao);
  translate_text _ _ _ _ _ := Answer ola;
  easynmt_translate _ _ _ _ target_lang := Answer (PStr target_lang);
  json_dumps := dumps;
  json_loads := loads;
  time_time h := length h;
  elapsed_repr t0 t1 := pretty (t1 - t0)%nat;
  selectbox_choice _ _ options index := default EmptyString (options !! index);
  text_area_value _ _ value := value;
|}.

End Demo.

(** ** Reasoning about runs *)

Section Runs.
Context `{Externals}.

Lemma world_eta (w : world) : World (heap w) (trace w ++ []) = w.
Proof. destruct w; simpl; by rewrite app_nil_r. Qed.

Lemma silent_emits {A} P (m : M A) : silent m → emits P m.
Proof. intros Hs w. exists []. rewrite Hs, world_eta. split; [done | constructor]. Qed.

Lemma silent_ret {A} (a : A) : silent (ret a).
Proof. done. Qed.

Lemma silent_raise {A} e : silent (@raise A e).
Proof. done. Qed.

Lemma silent_lift {A} (r : exn + A) : silent (lift r).
Proof. by destruct r. Qed.

Lemma silent_answer {A} (r : reply A) : silent (answer r).
Proof. by destruct r. Qed.

Lemma silent_getattr {A} name (field : instance → option A) self :
  silent (getattr name field self).
Proof. intros w. unfold getattr. by destruct (heap w !! self ≫= field). Qed.

Lemma silent_dict_getitem d k : silent (dict_getitem d k).
Proof. unfold dict_getitem. by destruct (d !! k). Qed.

Lemma silent_bind {A B} (m : M A) (k : A → M B) :
  silent m → (∀ a, silent (k a)) → silent (bind m k).
Proof.
  intros Hm Hk w. unfold bind. specialize (Hm w).
  destruct (m w) as [[a|e] w1]; simpl in *; subst; [apply Hk | done].
Qed.

Lemma silent_try {A} (body handler : M A) :
  silent body → silent handler → silent (try_except_KeyError body handler).
Proof.
  intros Hb Hh w. unfold try_except_KeyError. specialize (Hb w).
  destruct (body w) as [[a|e] w1]; simpl in *; subst; [done |].
  destruct e; first [done | apply Hh].
Qed.

Lemma emits_bind {A B} P (m : M A) (k : A → M B) :
  emits P m → (∀ a, emits P (k a)) → emits P (bind m k).
Proof.
  intros Hm Hk w. unfold bind. destruct (Hm w) as (evs & Hw & Hevs).
  destruct (m w) as [[a|e] w1]; simpl in *; subst.
  - destruct (Hk a (World (heap w) (trace w ++ evs))) as (evs' & Hw' & Hevs').
    exists (evs ++ evs'). simpl in Hw'. rewrite Hw', app_assoc.
    split; [done | by apply Forall_app].
  - by exists evs.
Qed.

Lemma emits_emit (P : event → Prop) e : P e → emits P (emit e).
Proof. intros HP w. exists [e]. split; [done | by constructor]. Qed.

Lemma emits_external {A} (P : event → Prop) e (oracle : list event → reply A) :
  P e → emits P (external e oracle).
Proof.
  intros HP w. exists [e]. split; [| by constructor].
  unfold external, bind, emit. simpl. by destruct (oracle (trace w)).
Qed.

Lemma emits_weaken {A} (P Q : event → Prop) (m : M A) :
  (∀ e, P e → Q e) → emits P m → emits Q m.
Proof.
  intros HPQ Hm w. destruct (Hm w) as (evs & Hw & Hevs).
  exists evs. split; [done | by eapply Forall_impl].
Qed.

Lemma emits_heap {A} P (m : M A) w : emits P m → heap (snd (m w)) = heap w.
Proof. intros Hm. destruct (Hm w) as (evs & -> & _). done. Qed.

End Runs.

(** ** Facts about [src/model.py] *)

Section ModelFacts.
Context `{Externals}.

Lemma alter_last {A} (f : A → A) (l : list A) (x : A) :
  alter f (length l) (l ++ [x]) = l ++ [f x].
Proof. by rewrite <- (Nat.add_0_r (length l)), alter_app_r. Qed.

Ltac run :=
  unfold construct, init, HelsinkiItc_init, FacebookMbart_init, AwsTranslate_init,
    FacebookLocalMbart_init, TranslateModel_init, new, setattr, external, emit,
    answer, bind, ret, raise; simpl.

Lemma construct_sagemaker c w self w' :
  c = HelsinkiItc ∨ c = FacebookMbart →
  construct c w = (Ret self, w') →
  ∃ handle,
    boto3_client (trace w) "sagemaker-runtime" = Answer handle ∧
    self = length (heap w) ∧
    w' = World (heap w ++ [Instance c (Some (default_endpoint_name c)) (Some handle)
                             None (Some (code_map c))])
               (trace w ++ [EvBotoClient "sagemaker-runtime"]).
Proof.
  intros [-> | ->]; run;
    (destruct (boto3_client (trace w) "sagemaker-runtime") as [handle|why];
     simpl; [| discriminate]);
    rewrite !alter_last; intros [= <- <-]; by exists handle.
Qed.

Lemma construct_AwsTranslate w self w' :
  construct AwsTranslate w = (Ret self, w') →
  ∃ handle,
    boto3_client (trace w ++ [EvBotoClient "sagemaker-runtime"]) "translate"
      = Answer handle ∧
    self = length (heap w) ∧
    w' = World (heap w ++ [Instance AwsTranslate (Some "aws-translate") (Some handle)
                             None (Some AwsTranslate_lang2iso)])
               (trace w ++ [EvBotoClient "sagemaker-runtime"; EvBotoClient "translate"]).
Proof.
  run. destruct (boto3_client (trace w) "sagemaker-runtime") as [h0|why];
    simpl; [| discriminate].
  destruct (boto3_client _ "translate") as [handle|why]; simpl; [| discriminate].
  rewrite !alter_last. intros [= <- <-]. exists handle.
  by rewrite <- app_assoc.
Qed.

Lemma construct_constructed c w self w' :
  c ∈ configured → construct c w = (Ret self, w') → constructed c self w'.
Proof.
  unfold configured. intros Hin Hc.
  apply elem_of_cons in Hin as [-> | Hin]; [| apply elem_of_cons in Hin as [-> | Hin];
    [| apply elem_of_cons in Hin as [-> | Hin]; [| by apply elem_of_nil in Hin]]].
  - apply construct_sagemaker in Hc as (h & _ & -> & ->); [| by left].
    exists h. simpl. by rewrite list_lookup_middle.
  - apply construct_sagemaker in Hc as (h & _ & -> & ->); [| by right].
    exists h. simpl. by rewrite list_lookup_middle.
  - apply construct_AwsTranslate in Hc as (h & _ & -> & ->).
    exists h. simpl. by rewrite list_lookup_middle.
Qed.

(** *** Dispatch and the guard *)

Lemma predict_dispatch self o text source_lang target_lang w :
  heap w !! self = Some o →
  predict self text source_lang target_lang w
  = method_predict (class_of o) self text source_lang target_lang w.
Proof. intros Ho. unfold predict. by rewrite Ho. Qed.

Lemma getattr_Some {A} name (field : instance → option A) self o a w :
  heap w !! self = Some o → field o = Some a →
  getattr name field self w = (Ret a, w).
Proof. intros Ho Ha. unfold getattr. rewrite Ho. simpl. by rewrite Ha. Qed.

Lemma lookup_codes_spec self o d source_lang target_lang w :
  heap w !! self = Some o → lang2iso o = Some d →
  lookup_codes self source_lang target_lang w
  = (Ret (codes d source_lang target_lang), w).
Proof.
  intros Ho Hd. unfold lookup_codes, try_except_KeyError, bind, codes.
  rewrite (getattr_Some _ _ _ _ _ _ Ho Hd). unfold dict_getitem.
  destruct (d !! source_lang) as [s|]; simpl; [| done].
  rewrite (getattr_Some _ _ _ _ _ _ Ho Hd).
  by destruct (d !! target_lang) as [t|].
Qed.

Lemma codes_None d source_lang target_lang :
  codes d source_lang target_lang = None ↔
  d !! source_lang = None ∨ d !! target_lang = None.
Proof.
  unfold codes. destruct (d !! source_lang), (d !! target_lang); intuition discriminate.
Qed.

Lemma HelsinkiItc_supports_registry lang :
  lang ∈ Language.registry → is_Some (HelsinkiItc_lang2iso !! lang).
Proof.
  unfold Language.registry. intros Hin.
  repeat (apply elem_of_cons in Hin as [-> | Hin];
          [by apply (bool_decide_unpack _); vm_compute |]).
  by apply elem_of_nil in Hin.
Qed.

(** *** What a call to [predict] can touch *)

Lemma silent_lookup_codes self source_lang target_lang :
  silent (lookup_codes self source_lang target_lang).
Proof.
  unfold lookup_codes.
  apply silent_try; [| apply silent_ret].
  repeat (apply silent_bind;
          [first [apply silent_getattr | apply silent_dict_getitem] | intros ?]).
  apply silent_ret.
Qed.

Lemma emits_invoke_sagemaker_endpoint self body :
  emits remote_call (_invoke_sagemaker_endpoint self body).
Proof.
  unfold _invoke_sagemaker_endpoint.
  apply emits_bind; [apply silent_emits, silent_getattr | intros c].
  apply emits_bind; [apply silent_emits, silent_getattr | intros n].
  apply emits_bind; [by apply emits_external | intros text].
  apply silent_emits. destruct (json_loads text); [apply silent_ret | apply silent_raise].
Qed.

Lemma emits_extract_translation prediction :
  emits remote_call
    (first <- lift (getitem_0 prediction) ; lift (getitem_str first "translation_text")).
Proof.
  apply silent_emits, silent_bind; [apply silent_lift | intros ?; apply silent_lift].
Qed.

Lemma emits_method_predict c self text source_lang target_lang :
  emits remote_call (method_predict c self text source_lang target_lang).
Proof.
  destruct c; simpl.
  - unfold HelsinkiItc_predict.
    apply emits_bind; [apply silent_emits, silent_getattr | intros d].
    apply emits_bind; [apply silent_emits, silent_dict_getitem | intros target_iso].
    apply emits_bind; [apply emits_invoke_sagemaker_endpoint | intros prediction].
    apply emits_extract_translation.
  - unfold FacebookLocalMbart_predict.
    apply emits_bind; [apply silent_emits, silent_lookup_codes | intros [[s t]|]].
    + apply emits_bind; [apply silent_emits, silent_getattr | intros m].
      by apply emits_external.
    + apply silent_emits, silent_ret.
  - unfold FacebookMbart_predict.
    apply emits_bind; [apply silent_emits, silent_lookup_codes | intros [[s t]|]].
    + apply emits_bind; [apply emits_invoke_sagemaker_endpoint | intros prediction].
      apply emits_extract_translation.
    + apply silent_emits, silent_ret.
  - unfold AwsTranslate_predict.
    apply emits_bind; [apply silent_emits, silent_lookup_codes | intros [[s t]|]].
    + apply emits_bind; [apply silent_emits, silent_getattr | intros c].
      apply emits_bind; [by apply emits_external | intros response].
      apply silent_emits, silent_lift.
    + apply silent_emits, silent_ret.
Qed.

Lemma emits_predict self text source_lang target_lang :
  emits remote_call (predict self text source_lang target_lang).
Proof.
  intros w. unfold predict. destruct (heap w !! self) as [o|].
  - apply emits_method_predict.
  - exists []. simpl. rewrite world_eta. split; [done | constructor].
Qed.

(** *** The two endpoint backends and the managed service, call by call *)

Lemma invoke_then_extract self o c n body w :
  heap w !! self = Some o → client o = Some c → endpoint_name o = Some n →
  (prediction <- _invoke_sagemaker_endpoint self body ;
   first <- lift (getitem_0 prediction) ;
   lift (getitem_str first "translation_text")) w
  = (endpoint_outcome (invoke_endpoint (trace w) c n body json_content json_content),
     record (EvInvokeEndpoint c n body json_content json_content) w).
Proof.
  intros Ho Hc Hn. unfold _invoke_sagemaker_endpoint, bind at 1 2 3.
  rewrite (getattr_Some _ _ _ _ _ _ Ho Hc), (getattr_Some _ _ _ _ _ _ Ho Hn).
  unfold external, emit, bind, endpoint_outcome, translation_of, json_content. simpl.
  destruct (invoke_endpoint _ _ _ _ _ _) as [text|why]; simpl; [| done].
  destruct (json_loads text) as [prediction|]; simpl; [| done].
  destruct (getitem_0 prediction) as [e|first]; simpl; [done |].
  by destruct (getitem_str first "translation_text").
Qed.

Lemma HelsinkiItc_predict_supported self o d c n target_iso text source_lang target_lang w :
  heap w !! self = Some o → lang2iso o = Some d →
  client o = Some c → endpoint_name o = Some n →
  d !! target_lang = Some target_iso →
  HelsinkiItc_predict self text source_lang target_lang w
  = (endpoint_outcome (invoke_endpoint (trace w) c n (HelsinkiItc_body target_iso text)
                         json_content json_content),
     record (EvInvokeEndpoint c n (HelsinkiItc_body target_iso text)
               json_content json_content) w).
Proof.
  intros Ho Hd Hc Hn Ht. unfold HelsinkiItc_predict, bind at 1 2.
  rewrite (getattr_Some _ _ _ _ _ _ Ho Hd). unfold dict_getitem. rewrite Ht. simpl.
  by apply invoke_then_extract with o.
Qed.

Lemma HelsinkiItc_predict_unsupported self o d text source_lang target_lang w :
  heap w !! self = Some o → lang2iso o = Some d →
  d !! target_lang = None →
  HelsinkiItc_predict self text source_lang target_lang w
  = (Raise (KeyError (PStr target_lang)), w).
Proof.
  intros Ho Hd Ht. unfold HelsinkiItc_predict, bind at 1 2.
  rewrite (getattr_Some _ _ _ _ _ _ Ho Hd). unfold dict_getitem. by rewrite Ht.
Qed.

Lemma FacebookMbart_predict_spec self o d c n text source_lang target_lang w :
  heap w !! self = Some o → lang2iso o = Some d →
  client o = Some c → endpoint_name o = Some n →
  FacebookMbart_predict self text source_lang target_lang w
  = match codes d source_lang target_lang with
    | None => (Ret not_supported, w)
    | Some (source_iso, target_iso) =>
        (endpoint_outcome
           (invoke_endpoint (trace w) c n (FacebookMbart_body source_iso target_iso text)
              json_content json_content),
         record (EvInvokeEndpoint c n (FacebookMbart_body source_iso target_iso text)
                   json_content json_content) w)
    end.
Proof.
  intros Ho Hd Hc Hn. unfold FacebookMbart_predict, bind at 1.
  rewrite (lookup_codes_spec _ _ _ _ _ _ Ho Hd).
  destruct (codes d source_lang target_lang) as [[source_iso target_iso]|]; [| done].
  by apply invoke_then_extract with o.
Qed.

Lemma AwsTranslate_predict_spec self o d c text source_lang target_lang w :
  heap w !! self = Some o → lang2iso o = Some d → client o = Some c →
  AwsTranslate_predict self text source_lang target_lang w
  = match codes d source_lang target_lang with
    | None => (Ret not_supported, w)
    | Some (source_iso, target_iso) =>
        (service_outcome (translate_text (trace w) c text source_iso target_iso),
         record (EvTranslateText c text source_iso target_iso) w)
    end.
Proof.
  intros Ho Hd Hc. unfold AwsTranslate_predict, bind at 1.
  rewrite (lookup_codes_spec _ _ _ _ _ _ Ho Hd).
  destruct (codes d source_lang target_lang) as [[source_iso target_iso]|]; [| done].
  unfold bind at 1. rewrite (getattr_Some _ _ _ _ _ _ Ho Hc).
  unfold external, emit, bind, service_outcome, record. simpl.
  destruct (translate_text _ _ _ _ _) as [response|why]; simpl; [| done].
  by destruct (getitem_str response "TranslatedText").
Qed.

Lemma FacebookLocalMbart_predict_spec self o d m text source_lang target_lang w :
  heap w !! self = Some o → lang2iso o = Some d → model o = Some m →
  FacebookLocalMbart_predict self text source_lang target_lang w
  = match codes d source_lang target_lang with
    | None => (Ret not_supported, w)
    | Some (source_iso, _) =>
        external (EvEasyNMTTranslate m text source_iso target_lang)
          (λ h, easynmt_translate h m text source_iso target_lang) w
    end.
Proof.
  intros Ho Hd Hm. unfold FacebookLocalMbart_predict, bind at 1.
  rewrite (lookup_codes_spec _ _ _ _ _ _ Ho Hd).
  destruct (codes d source_lang target_lang) as [[source_iso target_iso]|]; [| done].
  unfold bind at 1. by rewrite (getattr_Some _ _ _ _ _ _ Ho Hm).
Qed.

End ModelFacts.

(** ** Facts about [src/main.py] *)

Section MainFacts.
Context `{Externals}.

Lemma compare_one_eq text source_lang target_lang model o name w :
  heap w !! model = Some o → endpoint_name o = Some name →
  compare_one text source_lang target_lang model w
  = match predict model text source_lang target_lang (started name w) with
    | (Ret r, w1) => (Ret tt, finished name w r w1)
    | (Raise e, w1) => (Raise e, w1)
    end.
Proof.
  intros Ho Hn. unfold compare_one, bind at 1.
  rewrite (getattr_Some _ _ _ _ _ _ Ho Hn).
  unfold st_header, time_now, emit, bind, ret. simpl.
  unfold started, header_of. rewrite <- app_assoc. simpl.
  destruct (predict _ _ _ _ _) as [[r|e] w1]; [| done].
  unfold st_subheader, st_write, emit, finished, elapsed, start_time, seconds_line,
    header_of. simpl.
  by rewrite <- !app_assoc.
Qed.

Lemma compare_one_no_instance text source_lang target_lang model w r w' :
  compare_one text source_lang target_lang model w = (Ret r, w') →
  ∃ o name, heap w !! model = Some o ∧ endpoint_name o = Some name.
Proof.
  unfold compare_one, bind at 1, getattr.
  destruct (heap w !! model) as [o|] eqn:Ho; simpl; [| done].
  destruct (endpoint_name o) as [name|] eqn:Hn; [| done].
  intros _. by exists o, name.
Qed.

Lemma compare_cons text source_lang target_lang model models w :
  compare (model :: models) text source_lang target_lang w
  = match compare_one text source_lang target_lang model w with
    | (Ret _, w1) => compare models text source_lang target_lang w1
    | (Raise e, w1) => (Raise e, w1)
    end.
Proof. done. Qed.

(** The loop completes exactly when the sequence of the spec is produced. *)
Lemma compare_sequential text source_lang target_lang models w w' :
  compare models text source_lang target_lang w = (Ret tt, w') ↔
  ∃ out, sequential_run text source_lang target_lang models w out w'.
Proof.
  revert w. induction models as [|model models IH]; intros w.
  - split.
    + intros [= <-]. exists []. constructor.
    + intros (out & Hrun). by inversion Hrun.
  - rewrite compare_cons. split.
    + destruct (compare_one _ _ _ _ _) as [[[]|e] w1] eqn:Hone; [| done].
      intros Hrest. apply IH in Hrest as (out & Hrun).
      destruct (compare_one_no_instance _ _ _ _ _ _ _ Hone) as (o & name & Ho & Hn).
      rewrite (compare_one_eq _ _ _ _ _ _ _ Ho Hn) in Hone.
      destruct (predict _ _ _ _ _) as [[r|e] w2] eqn:Hp; [| done].
      injection Hone as <-. eexists. by eapply run_step.
    + intros (out & Hrun). inversion Hrun as [| ? ? ? o name r w1 out' ? Ho Hn Hp Hrest]; subst.
      rewrite (compare_one_eq _ _ _ _ _ _ _ Ho Hn), Hp.
      apply IH. by exists out'.
Qed.

Lemma shown_remote pending net rest :
  Forall remote_call net → shown pending (net ++ rest) = shown pending rest.
Proof.
  induction 1 as [|e net He _ IH]; [done |].
  destruct e; simpl in *; done.
Qed.

Lemma predict_from_started model text source_lang target_lang name w :
  ∃ net,
    snd (predict model text source_lang target_lang (started name w))
    = World (heap w) (trace w ++ [EvHeader (header_of name); EvTime] ++ net) ∧
    Forall remote_call net.
Proof.
  destruct (emits_predict model text source_lang target_lang (started name w))
    as (net & Hw & Hnet).
  exists net. split; [| done]. rewrite Hw. simpl. by rewrite <- app_assoc.
Qed.

(** A completed run leaves the instances alone and puts exactly its entries on
    the page, in order, whatever is drawn after it. *)
Lemma sequential_run_page text source_lang target_lang models w out w' :
  sequential_run text source_lang target_lang models w out w' →
  heap w' = heap w ∧
  ∃ evs, trace w' = trace w ++ evs ∧
         ∀ rest, shown None (evs ++ rest) = map panel_of out ++ shown None rest.
Proof.
  induction 1 as [w | model models w o name r w1 out w' Ho Hn Hp _ (Hheap & evs & Htr & Hsh)].
  - split; [done |]. exists []. by rewrite app_nil_r.
  - destruct (predict_from_started model text source_lang target_lang name w)
      as (net & Hw1 & Hnet).
    rewrite Hp in Hw1. simpl in Hw1. subst w1. simpl in *.
    split; [done |].
    exists ([EvHeader (header_of name); EvTime] ++ net
            ++ [EvSubheader r; EvTime; EvWrite (seconds_line (elapsed name w r
                 (World (heap w) (trace w ++ [EvHeader (header_of name); EvTime] ++ net))))]
            ++ evs).
    split.
    + rewrite Htr. by rewrite <- !app_assoc.
    + intros rest. simpl. rewrite <- !app_assoc. rewrite shown_remote by done.
      simpl. by rewrite Hsh.
Qed.

Lemma sequential_run_length text source_lang target_lang models w out w' :
  sequential_run text source_lang target_lang models w out w' →
  length out = length models.
Proof. induction 1; simpl; congruence. Qed.

(** The names of the entries are the [endpoint_name]s of the instances, in the
    order of the list. *)
Lemma sequential_run_names text source_lang target_lang models w out w' :
  sequential_run text source_lang target_lang models w out w' →
  map (λ model, heap w !! model ≫= endpoint_name) models
  = map (λ e : entry, Some (fst (fst e))) out.
Proof.
  induction 1 as [w | model models w o name r w1 out w' Ho Hn Hp _ IH]; [done |].
  simpl. rewrite Ho. simpl. rewrite Hn. f_equal. rewrite <- IH.
  apply map_ext. intros other. simpl.
  destruct (predict_from_started model text source_lang target_lang name w)
    as (net & Hw1 & _).
  rewrite Hp in Hw1. simpl in Hw1. by subst w1.
Qed.

Lemma compare_app text source_lang target_lang before after w :
  compare (before ++ after) text source_lang target_lang w
  = match compare before text source_lang target_lang w with
    | (Ret _, w1) => compare after text source_lang target_lang w1
    | (Raise e, w1) => (Raise e, w1)
    end.
Proof.
  revert w. induction before as [|model before IH]; intros w; [done |].
  simpl. rewrite !compare_cons.
  destruct (compare_one _ _ _ _ _) as [[[]|e] w1]; [apply IH | done].
Qed.

Lemma events_since_app w w' evs :
  trace w' = trace w ++ evs → events_since w w' = evs.
Proof. unfold events_since. intros ->. by rewrite drop_app_length. Qed.

(** *** Loading the models *)

Lemma load_models_spec w models w' :
  load_models w = (Ret models, w') →
  ∃ h1 h2 h3,
    models = [length (heap w); S (length (heap w)); S (S (length (heap w)))] ∧
    w' = World
           (heap w ++
            [Instance HelsinkiItc (Some (default_endpoint_name HelsinkiItc)) (Some h1)
               None (Some HelsinkiItc_lang2iso);
             Instance FacebookMbart (Some (default_endpoint_name FacebookMbart)) (Some h2)
               None (Some FacebookMbart_lang2iso);
             Instance AwsTranslate (Some (default_endpoint_name AwsTranslate)) (Some h3)
               None (Some AwsTranslate_lang2iso)])
           (trace w ++
            [EvBotoClient "sagemaker-runtime"; EvBotoClient "sagemaker-runtime";
             EvBotoClient "sagemaker-runtime"; EvBotoClient "translate"]).
Proof.
  unfold load_models, bind at 1.
  destruct (construct HelsinkiItc w) as [[a|e] w1] eqn:H1; [| done].
  apply construct_sagemaker in H1 as (h1 & _ & -> & ->); [| by left].
  unfold bind at 1.
  destruct (construct FacebookMbart _) as [[b|e] w2] eqn:H2; [| done].
  apply construct_sagemaker in H2 as (h2 & _ & -> & ->); [| by right].
  unfold bind at 1.
  destruct (construct AwsTranslate _) as [[c|e] w3] eqn:H3; [| done].
  apply construct_AwsTranslate in H3 as (h3 & _ & -> & ->).
  intros [= <- <-]. exists h1, h2, h3. simpl. rewrite !length_app. simpl.
  split.
  - do 2 f_equal; [lia | f_equal; lia].
  - by rewrite <- !app_assoc.
Qed.

Lemma main_eq w :
  main w
  = match load_models (after_setup w) with
    | (Ret models, w1) =>
        compare models (text_area_value (trace w1) "Text to translate" default_text)
          (chosen_source w) (chosen_target w) (record text_area_event w1)
    | (Raise e, w1) => (Raise e, w1)
    end.
Proof.
  unfold main, st_set_page_config, st_title, st_selectbox, emit, bind at 1 2 3 4 5 6.
  simpl. unfold bind at 1, ret. simpl. unfold bind at 1. simpl.
  unfold after_setup, setup_events, chosen_source, chosen_target.
  rewrite <- !app_assoc. simpl.
  destruct (load_models _) as [[models|e] w1]; [| done].
  done.
Qed.

End MainFacts.

(** ** The language-code tables of section 6 *)

Section ModelClaims.
Context `{Externals}.

Lemma configured_cases (P : cls → Prop) c :
  c ∈ configured → P HelsinkiItc → P FacebookMbart → P AwsTranslate → P c.
Proof.
  unfold configured. intros Hin ? ? ?.
  repeat (apply elem_of_cons in Hin as [-> | Hin]; [done |]).
  by apply elem_of_nil in Hin.
Qed.

Lemma code_map_keys c k :
  is_Some (code_map c !! k) → ∃ l, k = registry_value l.
Proof.
  intros [v Hv].
  destruct c; simpl in Hv;
    unfold HelsinkiItc_lang2iso, FacebookLocalMbart_lang2iso, FacebookMbart_lang2iso,
      AwsTranslate_lang2iso in Hv;
    repeat (apply lookup_insert_Some in Hv as [[<- _] | [_ Hv]];
            [first [by exists Spanish | by exists Italian | by exists Portuguese
                   | by exists Catalan | by exists Galician] |]);
    by rewrite lookup_empty in Hv.
Qed.

Lemma code_map_table c l :
  c ∈ configured → code_map c !! registry_value l = table_section6 c l.
Proof.
  intros Hc. revert l. pattern c. apply (configured_cases _ c Hc); intros []; by vm_compute.
Qed.

(** C1: for each of the three configured backends, every text and every pair
    of registry values, if either language is absent from the backend's code
    table then [predict] returns the string "Language not supported" and the
    world is left as it was: no endpoint and no translate client is called. *)
Theorem unsupported_pair_returns_sentinel c self w text source_lang target_lang :
  c ∈ configured → constructed c self w →
  source_lang ∈ Language.registry → target_lang ∈ Language.registry →
  code_map c !! source_lang = None ∨ code_map c !! target_lang = None →
  predict self text source_lang target_lang w = (Ret not_supported, w).
Proof.
  intros Hc (handle & Ho) Hs Ht Habsent.
  rewrite (predict_dispatch _ _ _ _ _ _ Ho). simpl.
  revert Ho Habsent. pattern c. apply (configured_cases _ c Hc); simpl; intros Ho Habsent.
  - destruct Habsent as [Hn | Hn].
    + apply HelsinkiItc_supports_registry in Hs as [? Hs]. congruence.
    + apply HelsinkiItc_supports_registry in Ht as [? Ht]. congruence.
  - rewrite (FacebookMbart_predict_spec _ _ _ _ _ _ _ _ _ Ho eq_refl eq_refl eq_refl).
    apply codes_None in Habsent. by rewrite Habsent.
  - rewrite (AwsTranslate_predict_spec _ _ _ _ _ _ _ _ Ho eq_refl eq_refl).
    apply codes_None in Habsent. by rewrite Habsent.
Qed.

(** C2: the code table each configured backend is constructed with equals the
    table of section 6 as a function on the registry values, and has no key
    outside the registry: [FacebookMbart] has neither Catalan nor Galician,
    [AwsTranslate] has no Galician. *)
Theorem code_maps_equal_table c w self w' :
  c ∈ configured → construct c w = (Ret self, w') →
  ∃ o d,
    heap w' !! self = Some o ∧ class_of o = c ∧ lang2iso o = Some d ∧
    (∀ l, d !! registry_value l = table_section6 c l) ∧
    (∀ k, is_Some (d !! k) → ∃ l, k = registry_value l).
Proof.
  intros Hc Hnew.
  destruct (construct_constructed _ _ _ _ Hc Hnew) as (handle & Ho).
  eexists _, (code_map c). split; [exact Ho |]. simpl.
  repeat split; [| apply code_map_keys]. intros l. by apply code_map_table.
Qed.

Lemma endpoint_outcome_translation reply_text first rest v :
  json_loads reply_text = Some (PList (PDict first :: rest)) →
  assoc "translation_text" first = Some v →
  endpoint_outcome (Answer reply_text) = Ret v.
Proof.
  intros Hloads Hv. unfold endpoint_outcome, translation_of. rewrite Hloads. simpl.
  by rewrite Hv.
Qed.

(** C3: for every text and every target language of the instance's code
    table, [HelsinkiItc.predict] sends one request whose body is the JSON
    object with the single field "inputs" holding ">>" + target_code + "<< " +
    text, and returns the "translation_text" field of the first element of the
    JSON-array response.  For "Hola", Spanish to Italian, the body is the
    object with "inputs" set to ">>ita<< Hola" and the response holding "Ciao"
    yields "Ciao". *)
Theorem HelsinkiItc_request_and_result
    self o d c n target_iso text source_lang target_lang body w :
  heap w !! self = Some o → class_of o = HelsinkiItc → lang2iso o = Some d →
  client o = Some c → endpoint_name o = Some n →
  d !! target_lang = Some target_iso →
  body = json_dumps (PDict [("inputs", PStr (">>" +:+ target_iso +:+ "<< " +:+ text))]) →
  snd (predict self text source_lang target_lang w)
    = record (EvInvokeEndpoint c n body "application/json" "application/json") w ∧
  (∀ reply_text first rest v,
     invoke_endpoint (trace w) c n body "application/json" "application/json"
       = Answer reply_text →
     json_loads reply_text = Some (PList (PDict first :: rest)) →
     assoc "translation_text" first = Some v →
     fst (predict self text source_lang target_lang w) = Ret v) ∧
  (d = HelsinkiItc_lang2iso → text = "Hola" →
   source_lang = Language.spanish → target_lang = Language.italian →
   body = json_dumps (PDict [("inputs", PStr ">>ita<< Hola")]) ∧
   ∀ reply_text,
     invoke_endpoint (trace w) c n body "application/json" "application/json"
       = Answer reply_text →
     json_loads reply_text = Some (PList [PDict [("translation_text", PStr "Ciao")]]) →
     fst (predict self text source_lang target_lang w) = Ret (PStr "Ciao")).
Proof.
  intros Ho Hcls Hd Hc Hn Ht ->.
  rewrite (predict_dispatch _ _ _ _ _ _ Ho), Hcls. simpl.
  rewrite (HelsinkiItc_predict_supported _ _ _ _ _ _ _ _ _ _ Ho Hd Hc Hn Ht).
  unfold HelsinkiItc_body, json_content. simpl.
  split; [done |]. split.
  - intros reply_text first rest v -> Hloads Hv.
    by eapply endpoint_outcome_translation.
  - intros -> -> -> ->. vm_compute in Ht. injection Ht as <-.
    split; [done |]. intros reply_text -> Hloads.
    by eapply endpoint_outcome_translation.
Qed.

(** C4: for every text and every pair of languages of the instance's code
    table, [FacebookMbart.predict] sends one request whose body is the JSON
    object with "inputs" set to the one-element list of the text and
    "parameters" set to the object with "src_lang" and "tgt_lang" set to the
    two codes, and returns the "translation_text" field of the first element
    of the JSON-array response. *)
Theorem FacebookMbart_request_and_result
    self o d c n source_iso target_iso text source_lang target_lang body w :
  heap w !! self = Some o → class_of o = FacebookMbart → lang2iso o = Some d →
  client o = Some c → endpoint_name o = Some n →
  d !! source_lang = Some source_iso → d !! target_lang = Some target_iso →
  body = json_dumps (PDict [
           ("inputs", PList [PStr text]);
           ("parameters", PDict [("src_lang", PStr source_iso);
                                 ("tgt_lang", PStr target_iso)])]) →
  snd (predict self text source_lang target_lang w)
    = record (EvInvokeEndpoint c n body "application/json" "application/json") w ∧
  (∀ reply_text first rest v,
     invoke_endpoint (trace w) c n body "application/json" "application/json"
       = Answer reply_text →
     json_loads reply_text = Some (PList (PDict first :: rest)) →
     assoc "translation_text" first = Some v →
     fst (predict self text source_lang target_lang w) = Ret v).
Proof.
  intros Ho Hcls Hd Hc Hn Hs Ht ->.
  rewrite (predict_dispatch _ _ _ _ _ _ Ho), Hcls. simpl.
  rewrite (FacebookMbart_predict_spec _ _ _ _ _ _ _ _ _ Ho Hd Hc Hn).
  unfold codes. rewrite Hs, Ht. unfold FacebookMbart_body, json_content. simpl.
  split; [done |].
  intros reply_text first rest v -> Hloads Hv.
  by eapply endpoint_outcome_translation.
Qed.

(** C5: for every text and every pair of languages of the instance's code
    table, [AwsTranslate.predict] calls the translate client once, with the
    text and the two codes, and returns the "TranslatedText" field of the
    response.  For "Hola", Spanish to Portuguese, the codes are "es" and
    "pt-PT" and the response holding "Olá" yields "Olá". *)
Theorem AwsTranslate_request_and_result
    self o d c source_iso target_iso text source_lang target_lang w :
  heap w !! self = Some o → class_of o = AwsTranslate → lang2iso o = Some d →
  client o = Some c →
  d !! source_lang = Some source_iso → d !! target_lang = Some target_iso →
  snd (predict self text source_lang target_lang w)
    = record (EvTranslateText c text source_iso target_iso) w ∧
  (∀ fields v,
     translate_text (trace w) c text source_iso target_iso = Answer (PDict fields) →
     assoc "TranslatedText" fields = Some v →
     fst (predict self text source_lang target_lang w) = Ret v) ∧
  (d = AwsTranslate_lang2iso → text = "Hola" →
   source_lang = Language.spanish → target_lang = Language.portugees →
   source_iso = "es" ∧ target_iso = "pt-PT" ∧
   (translate_text (trace w) c "Hola" "es" "pt-PT"
      = Answer (PDict [("TranslatedText", PStr "Olá")]) →
    fst (predict self text source_lang target_lang w) = Ret (PStr "Olá"))).
Proof.
  intros Ho Hcls Hd Hc Hs Ht.
  rewrite (predict_dispatch _ _ _ _ _ _ Ho), Hcls. simpl.
  rewrite (AwsTranslate_predict_spec _ _ _ _ _ _ _ _ Ho Hd Hc).
  unfold codes. rewrite Hs, Ht. simpl.
  split; [done |]. split.
  - intros fields v -> Hv. simpl. by rewrite Hv.
  - intros -> -> -> ->. vm_compute in Hs, Ht.
    injection Hs as <-. injection Ht as <-.
    split; [done |]. split; [done |]. by intros ->.
Qed.

Lemma HelsinkiItc_predict_returns self o d text source_lang target_lang w v w' :
  heap w !! self = Some o → lang2iso o = Some d →
  HelsinkiItc_predict self text source_lang target_lang w = (Ret v, w') →
  ∃ target_iso c n reply_text prediction,
    d !! target_lang = Some target_iso ∧ client o = Some c ∧ endpoint_name o = Some n ∧
    invoke_endpoint (trace w) c n
      (json_dumps (PDict [("inputs", PStr (">>" +:+ target_iso +:+ "<< " +:+ text))]))
      "application/json" "application/json" = Answer reply_text ∧
    json_loads reply_text = Some prediction ∧
    translation_of prediction = inr v.
Proof.
  intros Ho Hd.
  destruct (d !! target_lang) as [target_iso|] eqn:Ht; cycle 1.
  { by rewrite (HelsinkiItc_predict_unsupported _ _ _ _ _ _ _ Ho Hd Ht). }
  destruct (client o) as [c|] eqn:Hc; cycle 1.
  { unfold HelsinkiItc_predict, bind at 1 2.
    rewrite (getattr_Some _ _ _ _ _ _ Ho Hd). unfold dict_getitem. rewrite Ht. simpl.
    unfold _invoke_sagemaker_endpoint, bind, getattr. rewrite Ho. simpl.
    by rewrite Hc. }
  destruct (endpoint_name o) as [n|] eqn:Hn; cycle 1.
  { unfold HelsinkiItc_predict, bind at 1 2.
    rewrite (getattr_Some _ _ _ _ _ _ Ho Hd). unfold dict_getitem. rewrite Ht. simpl.
    unfold _invoke_sagemaker_endpoint, bind at 1 2 3.
    rewrite (getattr_Some _ _ _ _ _ _ Ho Hc). unfold getattr. rewrite Ho. simpl.
    by rewrite Hn. }
  rewrite (HelsinkiItc_predict_supported _ _ _ _ _ _ _ _ _ _ Ho Hd Hc Hn Ht).
  unfold endpoint_outcome, HelsinkiItc_body, json_content.
  destruct (invoke_endpoint _ _ _ _ _ _) as [reply_text|why] eqn:Hreply; [| done].
  destruct (json_loads reply_text) as [prediction|] eqn:Hloads; [| done].
  destruct (translation_of prediction) as [e|v'] eqn:Hv; [done |].
  intros [= <- _]. by exists target_iso, c, n, reply_text, prediction.
Qed.

(** C9, as amended: [HelsinkiItc.predict] has no unsupported-pair guard.  For
    every instance, text and source language, a target language that is not a
    key of the code table makes the call raise [KeyError], with no request
    sent; with the table of [__init__] such a target is outside the registry.
    Whatever the call returns is the translation the endpoint answered, so it
    is the string "Language not supported" only when the endpoint sent it. *)
Theorem HelsinkiItc_has_no_guard self o d text source_lang target_lang w :
  heap w !! self = Some o → class_of o = HelsinkiItc → lang2iso o = Some d →
  (d !! target_lang = None →
   predict self text source_lang target_lang w
     = (Raise (KeyError (PStr target_lang)), w)) ∧
  (d = HelsinkiItc_lang2iso → d !! target_lang = None →
   target_lang ∉ Language.registry) ∧
  (∀ v w',
     predict self text source_lang target_lang w = (Ret v, w') →
     ∃ target_iso c n reply_text prediction,
       d !! target_lang = Some target_iso ∧
       client o = Some c ∧ endpoint_name o = Some n ∧
       invoke_endpoint (trace w) c n
         (json_dumps (PDict [("inputs", PStr (">>" +:+ target_iso +:+ "<< " +:+ text))]))
         "application/json" "application/json" = Answer reply_text ∧
       json_loads reply_text = Some prediction ∧
       translation_of prediction = inr v).
Proof.
  intros Ho Hcls Hd.
  rewrite (predict_dispatch _ _ _ _ _ _ Ho), Hcls. simpl.
  split; [| split].
  - by apply HelsinkiItc_predict_unsupported with o.
  - intros -> Hnone Hin. apply HelsinkiItc_supports_registry in Hin as [? Hin]. congruence.
  - intros v w'. by apply HelsinkiItc_predict_returns.
Qed.

Lemma load_models_classes w models w' model o :
  load_models w = (Ret models, w') → model ∈ models → heap w' !! model = Some o →
  class_of o ∈ configured.
Proof.
  intros Hload Hin Ho.
  apply load_models_spec in Hload as (h1 & h2 & h3 & -> & ->). simpl in Ho.
  unfold configured.
  apply elem_of_cons in Hin as [-> | Hin].
  { rewrite lookup_app_r in Ho by lia. rewrite Nat.sub_diag in Ho.
    injection Ho as <-. simpl. set_solver. }
  apply elem_of_cons in Hin as [-> | Hin].
  { rewrite lookup_app_r in Ho by lia.
    replace (S (length (heap w)) - length (heap w)) with 1 in Ho by lia.
    injection Ho as <-. simpl. set_solver. }
  apply elem_of_cons in Hin as [-> | Hin]; [| by apply elem_of_nil in Hin].
  rewrite lookup_app_r in Ho by lia.
  replace (S (S (length (heap w))) - length (heap w)) with 2 in Ho by lia.
  injection Ho as <-. simpl. set_solver.
Qed.

(** C10: [FacebookLocalMbart] is a fourth backend that [load_models] never
    instantiates.  For every pair of languages of its code table, its
    [predict] hands the translator the target language name it was called
    with, which with the table of [__init__] is never the code the table maps
    it to; the code looked up for the target has no effect on the call. *)
Theorem FacebookLocalMbart_passes_language_name
    self o d m source_iso target_iso text source_lang target_lang w :
  heap w !! self = Some o → class_of o = FacebookLocalMbart → lang2iso o = Some d →
  model o = Some m →
  d !! source_lang = Some source_iso → d !! target_lang = Some target_iso →
  predict self text source_lang target_lang w
    = (match easynmt_translate (trace w) m text source_iso target_lang with
       | Answer v => Ret v
       | Failure why => Raise (InvocationError why)
       end,
       record (EvEasyNMTTranslate m text source_iso target_lang) w) ∧
  (d = FacebookLocalMbart_lang2iso → target_iso ≠ target_lang) ∧
  (∀ code, source_lang ≠ target_lang →
     let w2 := World (<[self := set_lang2iso (<[target_lang := code]> d) o]> (heap w))
                 (trace w) in
     fst (predict self text source_lang target_lang w2)
       = fst (predict self text source_lang target_lang w) ∧
     trace (snd (predict self text source_lang target_lang w2))
       = trace (snd (predict self text source_lang target_lang w))) ∧
  (∀ w0 models w1 other o',
     load_models w0 = (Ret models, w1) → other ∈ models → heap w1 !! other = Some o' →
     class_of o' ≠ FacebookLocalMbart).
Proof.
  intros Ho Hcls Hd Hm Hs Ht.
  rewrite !(predict_dispatch _ _ _ _ _ _ Ho), Hcls. simpl.
  rewrite !(FacebookLocalMbart_predict_spec _ _ _ _ _ _ _ _ Ho Hd Hm).
  unfold codes. rewrite Hs, Ht.
  split; [| split; [| split]].
  - unfold external, emit, bind, record. simpl.
    by destruct (easynmt_translate _ _ _ _ _).
  - intros ->. unfold FacebookLocalMbart_lang2iso in Ht.
    repeat (apply lookup_insert_Some in Ht as [[<- <-] | [_ Ht]]; [done |]).
    by rewrite lookup_empty in Ht.
  - intros code Hne.
    set (w2 := World (<[self := set_lang2iso (<[target_lang := code]> d) o]> (heap w))
                 (trace w)).
    assert (heap w2 !! self = Some (set_lang2iso (<[target_lang := code]> d) o)) as Ho2.
    { apply list_lookup_insert_eq. by apply lookup_lt_Some in Ho. }
    rewrite !(predict_dispatch _ _ _ _ _ _ Ho2). simpl. rewrite Hcls. simpl.
    rewrite !(FacebookLocalMbart_predict_spec _ _ _ _ _ _ _ _ Ho2 eq_refl Hm).
    unfold codes. rewrite lookup_insert_eq, lookup_insert_ne, Hs by done.
    unfold external, emit, bind. simpl.
    by destruct (easynmt_translate _ _ _ _ _).
  - intros w0 models w1 other o' Hload Hin Ho' Hlocal.
    pose proof (load_models_classes _ _ _ _ _ Hload Hin Ho') as Hconf.
    rewrite Hlocal in Hconf. unfold configured in Hconf.
    repeat (apply elem_of_cons in Hconf as [Hconf | Hconf]; [done |]).
    by apply elem_of_nil in Hconf.
Qed.

End ModelClaims.

(** ** The comparison driver *)

Section DriverClaims.
Context `{Externals}.

Lemma lookup_suffix3 {A} (l : list A) (a b c : A) :
  (l ++ [a; b; c]) !! length l = Some a ∧
  (l ++ [a; b; c]) !! S (length l) = Some b ∧
  (l ++ [a; b; c]) !! S (S (length l)) = Some c.
Proof.
  repeat split; rewrite lookup_app_r by lia.
  - by rewrite Nat.sub_diag.
  - by replace (S (length l) - length l) with 1 by lia.
  - by replace (S (S (length l)) - length l) with 2 by lia.
Qed.

Lemma predict_heap self text source_lang target_lang w :
  heap (snd (predict self text source_lang target_lang w)) = heap w.
Proof. eapply emits_heap, emits_predict. Qed.

Lemma after_calls_heap calls w : heap (after_calls calls w) = heap w.
Proof.
  revert w. induction calls as [|[[[self text] source_lang] target_lang] calls IH];
    intros w; [done |].
  simpl. by rewrite IH, predict_heap.
Qed.

Lemma compare_heap models text source_lang target_lang w :
  heap (snd (compare models text source_lang target_lang w)) = heap w.
Proof.
  revert w. induction models as [|model models IH]; intros w; [done |].
  rewrite compare_cons.
  assert (heap (snd (compare_one text source_lang target_lang model w)) = heap w) as Hone.
  { unfold compare_one, bind at 1, getattr.
    destruct (heap w !! model) as [o|] eqn:Ho; simpl; [| done].
    destruct (endpoint_name o) as [name|] eqn:Hn; [| done].
    fold (getattr "endpoint_name" endpoint_name model).
    pose proof (compare_one_eq text source_lang target_lang model o name w Ho Hn) as Heq.
    unfold compare_one, bind at 1 in Heq.
    rewrite (getattr_Some _ _ _ _ _ _ Ho Hn) in Heq. rewrite Heq.
    pose proof (predict_heap model text source_lang target_lang (started name w)) as Hp.
    by destruct (predict _ _ _ _ _) as [[r|e] w1]. }
  destruct (compare_one _ _ _ _ _) as [[[]|e] w1]; simpl in *; [| done].
  by rewrite IH.
Qed.

(** C8: a call to [predict], on any instance and with any arguments, whether
    it returns a translation, returns the sentinel or raises, leaves every
    instance as it was, so each [lang2iso] table and each [endpoint_name] is
    still what [__init__] assigned; the same holds after any sequence of
    calls and after a whole run of the driver's loop. *)
Theorem predict_leaves_instances_unchanged self text source_lang target_lang w :
  heap (snd (predict self text source_lang target_lang w)) = heap w ∧
  (∀ other,
     heap (snd (predict self text source_lang target_lang w)) !! other ≫= lang2iso
       = heap w !! other ≫= lang2iso ∧
     heap (snd (predict self text source_lang target_lang w)) !! other ≫= endpoint_name
       = heap w !! other ≫= endpoint_name) ∧
  (∀ calls, heap (after_calls calls w) = heap w) ∧
  (∀ models, heap (snd (compare models text source_lang target_lang w)) = heap w).
Proof.
  split; [apply predict_heap |]. split; [| split].
  - intros other. by rewrite predict_heap.
  - intros calls. apply after_calls_heap.
  - intros models. apply compare_heap.
Qed.

(** C6: when the loop has completed the backends before position i and the
    [predict] of the backend at position i raises, the loop raises the same
    exception whatever backends follow, in the world that call left: the page
    holds the completed entries of the backends before i, then the header of
    backend i and nothing after it but the requests of its failed call. *)
Theorem compare_aborts_at_first_failure
    text source_lang target_lang before model w w1 o name e w2 :
  compare before text source_lang target_lang w = (Ret tt, w1) →
  heap w1 !! model = Some o → endpoint_name o = Some name →
  predict model text source_lang target_lang (started name w1) = (Raise e, w2) →
  (∀ after,
     compare (before ++ model :: after) text source_lang target_lang w = (Raise e, w2)) ∧
  ∃ out net,
    sequential_run text source_lang target_lang before w out w1 ∧
    length out = length before ∧
    trace w2 = trace w1 ++ [EvHeader (header_of name); EvTime] ++ net ∧
    Forall remote_call net ∧
    shown None (events_since w w2) = map panel_of out.
Proof.
  intros Hbefore Ho Hn Hp. split.
  - intros after. rewrite compare_app, Hbefore, compare_cons.
    by rewrite (compare_one_eq _ _ _ _ _ _ _ Ho Hn), Hp.
  - apply compare_sequential in Hbefore as (out & Hrun).
    destruct (predict_from_started model text source_lang target_lang name w1)
      as (net & Hw2 & Hnet).
    rewrite Hp in Hw2. simpl in Hw2.
    exists out, net. split; [done |].
    split; [by eapply sequential_run_length |].
    split; [by rewrite Hw2 |]. split; [done |].
    destruct (sequential_run_page _ _ _ _ _ _ _ Hrun) as (_ & evs & Htr & Hsh).
    rewrite (events_since_app w w2 (evs ++ [EvHeader (header_of name); EvTime] ++ net)).
    + rewrite Hsh. simpl. rewrite <- (app_nil_r net), shown_remote by done.
      simpl. by rewrite app_nil_r.
    + rewrite Hw2. simpl. by rewrite Htr, <- app_assoc.
Qed.

(** C7: when [main] returns, it has drawn its widgets, loaded the models and
    drawn the text area, sending no request, and from the world the text area
    left to the world [main] ends in every backend of the configured list was
    invoked exactly once, with the text of the text area and the two chosen
    languages, one after the other in the order [HelsinkiItc],
    [FacebookMbart], [AwsTranslate], each in the world the previous one left;
    the page shows their (name, result, elapsed seconds) entries in that same
    order. *)
Theorem main_runs_backends_in_order w w' :
  main w = (Ret tt, w') →
  ∃ models w1 out,
    load_models (after_setup w) = (Ret models, w1) ∧
    trace (record text_area_event w1) = trace w ++
      [EvSetPageConfig "wide"; EvTitle "Data Day: Translation";
       EvSelectbox "Target" Language.registry 0;
       EvSelectbox "Target"
         (filter (λ lang, lang ≠ chosen_source w) Language.registry) 0;
       EvBotoClient "sagemaker-runtime"; EvBotoClient "sagemaker-runtime";
       EvBotoClient "sagemaker-runtime"; EvBotoClient "translate";
       EvTextArea "Text to translate" default_text] ∧
    Forall2 (λ c model, constructed c model (record text_area_event w1))
      configured models ∧
    sequential_run (text_area_value (trace w1) "Text to translate" default_text)
      (chosen_source w) (chosen_target w) models (record text_area_event w1) out w' ∧
    map (λ e : entry, fst (fst e)) out = map default_endpoint_name configured ∧
    shown None (events_since w w') = map panel_of out.
Proof.
  rewrite main_eq.
  destruct (load_models (after_setup w)) as [[models|e] w1] eqn:Hload; [| done].
  intros Hcompare.
  apply compare_sequential in Hcompare as (out & Hrun).
  exists models, w1, out. split; [done |].
  apply load_models_spec in Hload as (h1 & h2 & h3 & -> & ->).
  split.
  { unfold record, after_setup, setup_events, text_area_event. simpl.
    by rewrite <- !app_assoc. }
  split.
  { unfold configured, record. simpl.
    constructor; [| constructor; [| constructor; [| constructor]]].
    - exists h1. apply lookup_suffix3.
    - exists h2. apply lookup_suffix3.
    - exists h3. apply lookup_suffix3. }
  split; [exact Hrun |].
  split.
  - pose proof (sequential_run_names _ _ _ _ _ _ _ Hrun) as Hnames.
    unfold record in Hnames. simpl in Hnames.
    rewrite (proj1 (lookup_suffix3 _ _ _ _)) in Hnames.
    rewrite (proj1 (proj2 (lookup_suffix3 _ _ _ _))) in Hnames.
    rewrite (proj2 (proj2 (lookup_suffix3 _ _ _ _))) in Hnames.
    simpl in Hnames.
    destruct out as [|[[n1 r1] s1] [|[[n2 r2] s2] [|[[n3 r3] s3] [|? ?]]]]; try done.
    simpl in Hnames. by injection Hnames as <- <- <-.
  - destruct (sequential_run_page _ _ _ _ _ _ _ Hrun) as (_ & evs & Htr & Hsh).
    unfold record, after_setup in Htr. simpl in Htr.
    rewrite <- !app_assoc in Htr.
    rewrite (events_since_app w w' _ Htr). simpl.
    specialize (Hsh []). rewrite !app_nil_r in Hsh. exact Hsh.
Qed.

End DriverClaims.

(** ** Further properties of the backends *)

Section BackendProperties.
Context `{Externals}.

Lemma one_silent {A} (m : M A) : silent m → at_most_one_request m.
Proof. intros Hs w. left. apply Hs. Qed.

Lemma one_bind_l {A B} (m : M A) (k : A → M B) :
  silent m → (∀ a, at_most_one_request (k a)) → at_most_one_request (bind m k).
Proof.
  intros Hm Hk w. unfold bind. specialize (Hm w).
  destruct (m w) as [[a|e] w1]; simpl in *; subst; [apply Hk | by left].
Qed.

Lemma one_bind_r {A B} (m : M A) (k : A → M B) :
  at_most_one_request m → (∀ a, silent (k a)) → at_most_one_request (bind m k).
Proof.
  intros Hm Hk w. unfold bind. specialize (Hm w).
  destruct (m w) as [[a|e] w1]; simpl in *; [| done].
  by rewrite (Hk a w1).
Qed.

Lemma one_external {A} e (oracle : list event → reply A) :
  remote_call e → at_most_one_request (external e oracle).
Proof.
  intros He w. right. exists e. split; [done |].
  unfold external, bind, emit, record. simpl. by destruct (oracle (trace w)).
Qed.

Lemma one_invoke_sagemaker_endpoint self body k :
  (∀ prediction : pyval, silent (k prediction)) →
  at_most_one_request (bind (_invoke_sagemaker_endpoint self body) k : M pyval).
Proof.
  intros Hk. apply one_bind_r; [| done].
  unfold _invoke_sagemaker_endpoint.
  apply one_bind_l; [apply silent_getattr | intros c].
  apply one_bind_l; [apply silent_getattr | intros n].
  apply one_bind_r; [by apply one_external | intros text].
  destruct (json_loads text); [apply silent_ret | apply silent_raise].
Qed.

Lemma silent_extract prediction :
  silent (first <- lift (getitem_0 prediction) ;
          lift (getitem_str first "translation_text")).
Proof. apply silent_bind; [apply silent_lift | intros ?; apply silent_lift]. Qed.

Lemma one_method_predict c self text source_lang target_lang :
  at_most_one_request (method_predict c self text source_lang target_lang).
Proof.
  destruct c; simpl.
  - unfold HelsinkiItc_predict.
    apply one_bind_l; [apply silent_getattr | intros d].
    apply one_bind_l; [apply silent_dict_getitem | intros target_iso].
    apply one_invoke_sagemaker_endpoint, silent_extract.
  - unfold FacebookLocalMbart_predict.
    apply one_bind_l; [apply silent_lookup_codes | intros [[s t]|]].
    + apply one_bind_l; [apply silent_getattr | intros m]. by apply one_external.
    + apply one_silent, silent_ret.
  - unfold FacebookMbart_predict.
    apply one_bind_l; [apply silent_lookup_codes | intros [[s t]|]].
    + apply one_invoke_sagemaker_endpoint, silent_extract.
    + apply one_silent, silent_ret.
  - unfold AwsTranslate_predict.
    apply one_bind_l; [apply silent_lookup_codes | intros [[s t]|]].
    + apply one_bind_l; [apply silent_getattr | intros c].
      apply one_bind_r; [by apply one_external | intros response; apply silent_lift].
    + apply one_silent, silent_ret.
Qed.

Lemma one_predict self text source_lang target_lang :
  at_most_one_request (predict self text source_lang target_lang).
Proof.
  intros w. unfold predict. destruct (heap w !! self) as [o|].
  - apply one_method_predict.
  - by left.
Qed.

(** X1: a call to [predict], of any class and with any arguments, either
    leaves the world as it was or records exactly one request to a translation
    service and nothing else: it draws nothing, reads no clock and creates no
    client, whatever it returns or raises. *)
Theorem predict_sends_at_most_one_request self text source_lang target_lang w :
  snd (predict self text source_lang target_lang w) = w ∨
  ∃ e, remote_call e ∧
       snd (predict self text source_lang target_lang w) = record e w.
Proof. apply one_predict. Qed.

Lemma guarded_cases (P : cls → Prop) c :
  c ∈ guarded → P FacebookLocalMbart → P FacebookMbart → P AwsTranslate → P c.
Proof.
  unfold guarded. intros Hin ? ? ?.
  repeat (apply elem_of_cons in Hin as [-> | Hin]; [done |]).
  by apply elem_of_nil in Hin.
Qed.

Lemma guarded_sentinel c self o d text source_lang target_lang w :
  c ∈ guarded →
  heap w !! self = Some o → class_of o = c → lang2iso o = Some d →
  d !! source_lang = None ∨ d !! target_lang = None →
  predict self text source_lang target_lang w = (Ret not_supported, w).
Proof.
  intros Hc Ho Hcls Hd Habsent.
  rewrite (predict_dispatch _ _ _ _ _ _ Ho), Hcls.
  apply codes_None in Habsent.
  pattern c. apply (guarded_cases _ c Hc); simpl;
    unfold FacebookLocalMbart_predict, FacebookMbart_predict, AwsTranslate_predict,
      bind at 1;
    by rewrite (lookup_codes_spec _ _ _ _ _ _ Ho Hd), Habsent.
Qed.

(** X2: for the three classes whose [predict] opens with the guard, whatever
    table the instance holds and whatever strings are passed as languages, a
    language that is not a key of the table makes [predict] return "Language
    not supported" and leave the world as it was, even for an instance that
    has no client. *)
Theorem guarded_predict_unsupported c self o d text source_lang target_lang w :
  c ∈ guarded →
  heap w !! self = Some o → class_of o = c → lang2iso o = Some d →
  d !! source_lang = None ∨ d !! target_lang = None →
  predict self text source_lang target_lang w = (Ret not_supported, w).
Proof. apply guarded_sentinel. Qed.

Lemma endpoint_backed_predict self o d c n source_iso target_iso text source_lang target_lang w :
  heap w !! self = Some o →
  class_of o = HelsinkiItc ∨ class_of o = FacebookMbart →
  lang2iso o = Some d → client o = Some c → endpoint_name o = Some n →
  d !! source_lang = Some source_iso → d !! target_lang = Some target_iso →
  ∃ body,
    predict self text source_lang target_lang w
    = (endpoint_outcome (invoke_endpoint (trace w) c n body json_content json_content),
       record (EvInvokeEndpoint c n body json_content json_content) w).
Proof.
  intros Ho Hcls Hd Hc Hn Hs Ht. rewrite (predict_dispatch _ _ _ _ _ _ Ho).
  destruct Hcls as [-> | ->]; simpl.
  - exists (HelsinkiItc_body target_iso text).
    by apply HelsinkiItc_predict_supported with o d.
  - exists (FacebookMbart_body source_iso target_iso text).
    rewrite (FacebookMbart_predict_spec _ _ _ _ _ _ _ _ _ Ho Hd Hc Hn).
    unfold codes. by rewrite Hs, Ht.
Qed.

(** X3: for [HelsinkiItc] and [FacebookMbart] on a supported pair, the request
    is recorded whatever comes back, and nothing that comes back is turned
    into the sentinel: a failed invocation raises the invocation error, a body
    that is not JSON raises the decode error, an empty array raises
    [IndexError], a JSON object raises [KeyError] for the key 0, and a first
    element without "translation_text" raises [KeyError] for that key, which
    the [except KeyError] of [FacebookMbart] does not catch. *)
Theorem endpoint_backends_failure_modes
    self o d c n source_iso target_iso text source_lang target_lang w :
  heap w !! self = Some o →
  class_of o = HelsinkiItc ∨ class_of o = FacebookMbart →
  lang2iso o = Some d → client o = Some c → endpoint_name o = Some n →
  d !! source_lang = Some source_iso → d !! target_lang = Some target_iso →
  ∃ body,
    snd (predict self text source_lang target_lang w)
      = record (EvInvokeEndpoint c n body "application/json" "application/json") w ∧
    (∀ why,
       invoke_endpoint (trace w) c n body "application/json" "application/json"
         = Failure why →
       fst (predict self text source_lang target_lang w) = Raise (InvocationError why)) ∧
    (∀ reply_text,
       invoke_endpoint (trace w) c n body "application/json" "application/json"
         = Answer reply_text →
       (json_loads reply_text = None →
        fst (predict self text source_lang target_lang w) = Raise JSONDecodeError) ∧
       (json_loads reply_text = Some (PList []) →
        fst (predict self text source_lang target_lang w) = Raise IndexError) ∧
       (∀ fields, json_loads reply_text = Some (PDict fields) →
        fst (predict self text source_lang target_lang w) = Raise (KeyError (PInt 0))) ∧
       (∀ fields rest,
          json_loads reply_text = Some (PList (PDict fields :: rest)) →
          assoc "translation_text" fields = None →
          fst (predict self text source_lang target_lang w)
            = Raise (KeyError (PStr "translation_text")))).
Proof.
  intros Ho Hcls Hd Hc Hn Hs Ht.
  destruct (endpoint_backed_predict _ _ _ _ _ _ _ text _ _ _ Ho Hcls Hd Hc Hn Hs Ht)
    as (body & ->).
  exists body. unfold json_content. simpl. split; [done |]. split.
  - by intros why ->.
  - intros reply_text ->. unfold endpoint_outcome, translation_of.
    repeat split.
    + by intros ->.
    + by intros ->.
    + by intros fields ->.
    + intros fields rest -> Hnone. simpl. by rewrite Hnone.
Qed.

(** X4: for [AwsTranslate] on a supported pair, the call to the translate
    client is recorded whatever comes back; a failed call raises the
    invocation error, and a response without "TranslatedText" raises
    [KeyError] for that key: the [except KeyError] of the guard does not turn
    it into the sentinel. *)
Theorem AwsTranslate_failure_modes
    self o d c source_iso target_iso text source_lang target_lang w :
  heap w !! self = Some o → class_of o = AwsTranslate → lang2iso o = Some d →
  client o = Some c →
  d !! source_lang = Some source_iso → d !! target_lang = Some target_iso →
  (∀ why,
     translate_text (trace w) c text source_iso target_iso = Failure why →
     predict self text source_lang target_lang w
       = (Raise (InvocationError why),
          record (EvTranslateText c text source_iso target_iso) w)) ∧
  (∀ fields,
     translate_text (trace w) c text source_iso target_iso = Answer (PDict fields) →
     assoc "TranslatedText" fields = None →
     predict self text source_lang target_lang w
       = (Raise (KeyError (PStr "TranslatedText")),
          record (EvTranslateText c text source_iso target_iso) w)).
Proof.
  intros Ho Hcls Hd Hc Hs Ht.
  rewrite (predict_dispatch _ _ _ _ _ _ Ho), Hcls. simpl.
  rewrite (AwsTranslate_predict_spec _ _ _ _ _ _ _ _ Ho Hd Hc).
  unfold codes. rewrite Hs, Ht. split.
  - by intros why ->.
  - intros fields -> Hnone. simpl. by rewrite Hnone.
Qed.

Lemma record_ne e w : record e w ≠ w.
Proof.
  intros Heq. apply (f_equal (λ w', length (trace w'))) in Heq.
  simpl in Heq. rewrite length_app in Heq. simpl in Heq. lia.
Qed.

(** X11: for an initialised instance of one of the three guarded classes, a
    call to [predict] sends a request exactly when both languages are keys of
    its table: with both it records one request to its service, with one
    missing it records nothing. *)
Theorem guarded_request_iff_supported c self o d handle n text source_lang target_lang w :
  c ∈ guarded →
  heap w !! self = Some o → class_of o = c → lang2iso o = Some d →
  client o = Some handle → endpoint_name o = Some n →
  (c = FacebookLocalMbart → is_Some (model o)) →
  (snd (predict self text source_lang target_lang w) = w ↔
   d !! source_lang = None ∨ d !! target_lang = None) ∧
  (is_Some (d !! source_lang) → is_Some (d !! target_lang) →
   ∃ e, remote_call e ∧ snd (predict self text source_lang target_lang w) = record e w).
Proof.
  intros Hc Ho Hcls Hd Hcl Hn Hm.
  assert (is_Some (d !! source_lang) → is_Some (d !! target_lang) →
          ∃ e, remote_call e ∧
               snd (predict self text source_lang target_lang w) = record e w) as Hsent.
  { intros [source_iso Hs] [target_iso Ht].
    rewrite (predict_dispatch _ _ _ _ _ _ Ho), Hcls.
    revert Hcls Hm. pattern c. apply (guarded_cases _ c Hc); intros Hcls Hm; simpl.
    - destruct (Hm eq_refl) as [m Hmodel].
      rewrite (FacebookLocalMbart_predict_spec _ _ _ _ _ _ _ _ Ho Hd Hmodel).
      unfold codes. rewrite Hs, Ht.
      eexists. split; [| unfold external, emit, bind, record; simpl;
                         by destruct (easynmt_translate _ _ _ _ _)]. done.
    - rewrite (FacebookMbart_predict_spec _ _ _ _ _ _ _ _ _ Ho Hd Hcl Hn).
      unfold codes. rewrite Hs, Ht. eexists. split; [| done]. done.
    - rewrite (AwsTranslate_predict_spec _ _ _ _ _ _ _ _ Ho Hd Hcl).
      unfold codes. rewrite Hs, Ht. eexists. split; [| done]. done. }
  split; [| exact Hsent]. split.
  - intros Hsame.
    destruct (d !! source_lang) as [source_iso|] eqn:Hs; [| by left].
    destruct (d !! target_lang) as [target_iso|] eqn:Ht; [| by right].
    destruct Hsent as (e & _ & Hrec); [done | done |].
    rewrite Hrec in Hsame. by apply record_ne in Hsame.
  - intros Habsent. by rewrite (guarded_sentinel c self o d).
Qed.

(** *** Construction *)

Lemma construct_configured c w self w' :
  c ∈ configured → construct c w = (Ret self, w') →
  ∃ handle,
    self = length (heap w) ∧
    w' = World (heap w ++ [Instance c (Some (default_endpoint_name c)) (Some handle)
                             None (Some (code_map c))])
               (trace w ++ creation_events c).
Proof.
  intros Hc. pattern c. apply (configured_cases _ c Hc); intros Hnew.
  - apply construct_sagemaker in Hnew as (h & _ & -> & ->); [| by left]. by exists h.
  - apply construct_sagemaker in Hnew as (h & _ & -> & ->); [| by right]. by exists h.
  - apply construct_AwsTranslate in Hnew as (h & _ & -> & ->). by exists h.
Qed.

(** X5: constructing a configured backend adds one instance at a fresh place,
    with its default endpoint name, a client and its code table, leaves every
    instance that was there as it was, and asks boto3 for the clients of its
    class and for nothing else: one "sagemaker-runtime" client, and for
    [AwsTranslate] a "translate" client after it. *)
Theorem construct_adds_one_instance c w self w' :
  c ∈ configured → construct c w = (Ret self, w') →
  heap w !! self = None ∧
  constructed c self w' ∧
  length (heap w') = S (length (heap w)) ∧
  (∀ other, other < length (heap w) → heap w' !! other = heap w !! other) ∧
  trace w' = trace w ++ creation_events c.
Proof.
  intros Hc Hnew.
  destruct (construct_configured _ _ _ _ Hc Hnew) as (handle & -> & ->). simpl.
  split; [by apply lookup_ge_None |].
  split.
  { exists handle. simpl. rewrite list_lookup_middle by done.
    by pattern c; apply (configured_cases _ c Hc). }
  split; [rewrite length_app; simpl; lia |].
  split; [| done].
  intros other Hlt. by apply lookup_app_l.
Qed.

(** X6: [AwsTranslate()] first asks for a "sagemaker-runtime" client, through
    the base class, and then for a "translate" client; the instance keeps the
    second one only.  If the first request fails the construction fails, with
    no "translate" client asked for, although that client is never used. *)
Theorem AwsTranslate_keeps_the_translate_client w :
  (∀ self w',
     construct AwsTranslate w = (Ret self, w') →
     ∃ unused handle,
       boto3_client (trace w) "sagemaker-runtime" = Answer unused ∧
       boto3_client (trace w ++ [EvBotoClient "sagemaker-runtime"]) "translate"
         = Answer handle ∧
       heap w' !! self ≫= client = Some handle) ∧
  (∀ why,
     boto3_client (trace w) "sagemaker-runtime" = Failure why →
     fst (construct AwsTranslate w) = Raise (InvocationError why) ∧
     trace (snd (construct AwsTranslate w)) = trace w ++ [EvBotoClient "sagemaker-runtime"]).
Proof.
  split.
  - intros self w' Hnew.
    destruct (boto3_client (trace w) "sagemaker-runtime") as [unused|why] eqn:Hfirst.
    + apply construct_AwsTranslate in Hnew as (handle & Hsecond & -> & ->).
      exists unused, handle. simpl. by rewrite list_lookup_middle.
    + revert Hnew. unfold construct, init, AwsTranslate_init, TranslateModel_init, new,
        setattr, external, emit, answer, bind, ret, raise. simpl.
      by rewrite Hfirst.
  - intros why Hfirst.
    unfold construct, init, AwsTranslate_init, TranslateModel_init, new,
      setattr, external, emit, answer, bind, ret, raise. simpl.
    by rewrite Hfirst.
Qed.

End BackendProperties.

(** ** Further properties of the driver *)

Section DriverProperties.
Context `{Externals}.

Lemma construct_raises c w e w' :
  c ∈ configured → construct c w = (Raise e, w') → ∃ why, e = InvocationError why.
Proof.
  intros Hc. pattern c. apply (configured_cases _ c Hc);
    unfold construct, init, HelsinkiItc_init, FacebookMbart_init, AwsTranslate_init,
      TranslateModel_init, new, setattr, external, emit, answer, bind, ret, raise; simpl;
    (destruct (boto3_client (trace w) "sagemaker-runtime") as [h0|why0]; simpl;
     [| intros [= <- _]; by eexists]); try done.
  destruct (boto3_client _ "translate") as [h1|why1]; simpl; [done |].
  intros [= <- _]. by eexists.
Qed.

Lemma load_models_raises w e w' :
  load_models w = (Raise e, w') → ∃ why, e = InvocationError why.
Proof.
  unfold load_models, bind at 1.
  destruct (construct HelsinkiItc w) as [[a|e1] w1] eqn:H1; cycle 1.
  { intros [= <- _]. eapply (construct_raises HelsinkiItc); [| done].
    apply list_elem_of_here. }
  unfold bind at 1.
  destruct (construct FacebookMbart w1) as [[b|e2] w2] eqn:H2; cycle 1.
  { intros [= <- _]. eapply (construct_raises FacebookMbart); [| done].
    apply list_elem_of_further, list_elem_of_here. }
  unfold bind at 1.
  destruct (construct AwsTranslate w2) as [[c|e3] w3] eqn:H3; [done |].
  intros [= <- _]. eapply (construct_raises AwsTranslate); [| done].
  do 2 apply list_elem_of_further. apply list_elem_of_here.
Qed.


(** *** What [main] adds to the history *)

Lemma appends_bind {A B} P (m : M A) (k : A → M B) :
  appends P m → (∀ a, appends P (k a)) → appends P (bind m k).
Proof.
  intros Hm Hk w. unfold bind. destruct (Hm w) as (evs & Hevs & HP).
  destruct (m w) as [[a|e] w1]; simpl in *.
  - destruct (Hk a w1) as (evs' & Hevs' & HP'). exists (evs ++ evs').
    split; [by rewrite Hevs', Hevs, app_assoc | by apply Forall_app].
  - by exists evs.
Qed.

Lemma appends_silent {A} P (m : M A) : silent m → appends P m.
Proof. intros Hs w. exists []. split; [by rewrite Hs, app_nil_r | constructor]. Qed.

Lemma appends_emits {A} P (m : M A) : emits P m → appends P m.
Proof. intros Hm w. destruct (Hm w) as (evs & -> & HP). by exists evs. Qed.

Lemma appends_weaken {A} (P Q : event → Prop) (m : M A) :
  (∀ e, P e → Q e) → appends P m → appends Q m.
Proof.
  intros HPQ Hm w. destruct (Hm w) as (evs & Hevs & HP).
  exists evs. split; [done | by eapply Forall_impl].
Qed.

Lemma appends_setattr P self f : appends P (setattr self f).
Proof. intros w. exists []. simpl. split; [by rewrite app_nil_r | constructor]. Qed.

Lemma appends_new P c : appends P (new c).
Proof. intros w. exists []. simpl. split; [by rewrite app_nil_r | constructor]. Qed.

Lemma appends_external {A} (P : event → Prop) e (oracle : list event → reply A) :
  P e → appends P (external e oracle).
Proof. intros He. by apply appends_emits, emits_external. Qed.

Lemma appends_TranslateModel_init self name :
  appends client_request (TranslateModel_init self name).
Proof.
  unfold TranslateModel_init.
  apply appends_bind; [apply appends_setattr | intros _].
  apply appends_bind; [by apply appends_external | intros c]. apply appends_setattr.
Qed.

Lemma appends_construct c : c ∈ configured → appends client_request (construct c).
Proof.
  intros Hc. unfold construct.
  apply appends_bind; [apply appends_new | intros self].
  apply appends_bind; [| intros _; apply appends_silent, silent_ret].
  pattern c. apply (configured_cases _ c Hc); simpl.
  - apply appends_bind; [apply appends_TranslateModel_init | intros _; apply appends_setattr].
  - apply appends_bind; [apply appends_TranslateModel_init | intros _; apply appends_setattr].
  - apply appends_bind; [apply appends_TranslateModel_init | intros _].
    apply appends_bind; [by apply appends_external | intros c'].
    apply appends_bind; [apply appends_setattr | intros _; apply appends_setattr].
Qed.

Lemma appends_load_models : appends client_request load_models.
Proof.
  unfold load_models.
  apply appends_bind; [apply appends_construct, list_elem_of_here | intros a].
  apply appends_bind;
    [apply appends_construct, list_elem_of_further, list_elem_of_here | intros b].
  apply appends_bind;
    [apply appends_construct; do 2 apply list_elem_of_further; apply list_elem_of_here
    | intros c].
  apply appends_silent, silent_ret.
Qed.

Lemma appends_time_now : appends anything time_now.
Proof. intros w. exists [EvTime]. split; [done | by repeat constructor]. Qed.

Lemma appends_anything {A} P (m : M A) : appends P m → appends anything m.
Proof. by apply appends_weaken. Qed.

Lemma appends_compare_one text source_lang target_lang model :
  appends anything (compare_one text source_lang target_lang model).
Proof.
  unfold compare_one.
  apply appends_bind; [apply appends_silent, silent_getattr | intros name].
  apply appends_bind; [by apply appends_emits, emits_emit | intros _].
  apply appends_bind; [apply appends_time_now | intros t0].
  apply appends_bind;
    [apply (appends_anything remote_call), appends_emits, emits_predict | intros r].
  apply appends_bind; [by apply appends_emits, emits_emit | intros _].
  apply appends_bind; [apply appends_time_now | intros t1].
  by apply appends_emits, emits_emit.
Qed.

Lemma appends_compare models text source_lang target_lang :
  appends anything (compare models text source_lang target_lang).
Proof.
  unfold compare. induction models as [|model models IH]; simpl.
  - apply appends_silent, silent_ret.
  - apply appends_bind; [apply appends_compare_one | intros _; apply IH].
Qed.

(** X8: whatever happens later in the run, [main] first draws the page
    configuration, the title and two select boxes, both labelled "Target":
    the first offers the five registry languages and the second offers them
    without the one chosen in the first.  So the language chosen as source is
    never offered as target, every other registry language is, and for a
    source of the registry the second box has exactly four options. *)
Theorem main_offers_the_other_languages w :
  (∃ rest,
     trace (snd (main w)) = trace w ++
       [EvSetPageConfig "wide"; EvTitle "Data Day: Translation";
        EvSelectbox "Target" Language.registry 0;
        EvSelectbox "Target"
          (filter (λ lang, lang ≠ chosen_source w) Language.registry) 0] ++ rest) ∧
  (chosen_source w ∉ filter (λ lang, lang ≠ chosen_source w) Language.registry) ∧
  (∀ lang, lang ∈ Language.registry → lang ≠ chosen_source w →
     lang ∈ filter (λ lang, lang ≠ chosen_source w) Language.registry) ∧
  (chosen_source w ∈ Language.registry →
     length (filter (λ lang, lang ≠ chosen_source w) Language.registry) = 4).
Proof.
  split; [| split; [| split]].
  - rewrite main_eq.
    destruct (appends_load_models (after_setup w)) as (evs1 & Hevs1 & _).
    destruct (load_models (after_setup w)) as [[models|e] w1]; simpl in Hevs1.
    + destruct (appends_compare models
                  (text_area_value (trace w1) "Text to translate" default_text)
                  (chosen_source w) (chosen_target w) (record text_area_event w1))
        as (evs2 & Hevs2 & _).
      rewrite Hevs2. simpl. rewrite Hevs1. unfold setup_events.
      exists (evs1 ++ [text_area_event] ++ evs2). by rewrite <- !app_assoc.
    + exists evs1. simpl. rewrite Hevs1. unfold setup_events. by rewrite <- !app_assoc.
  - rewrite list_elem_of_filter. by intros [? _].
  - intros lang Hin Hne. by apply list_elem_of_filter.
  - intros Hin. unfold Language.registry in *.
    repeat (apply elem_of_cons in Hin as [-> | Hin]; [by vm_compute |]).
    by apply elem_of_nil in Hin.
Qed.

Lemma shown_client_requests pending requests rest :
  Forall client_request requests →
  shown pending (requests ++ rest) = shown pending rest.
Proof.
  induction 1 as [|e requests He _ IH]; [done |].
  destruct e; simpl in *; done.
Qed.

(** X12: when a backend cannot be constructed, [main] raises the failure of
    that request for a client and stops there: after the two select boxes the
    run has only asked boto3 for clients, so no text area is drawn, no header
    is written and the page shows no entry. *)
Theorem main_aborts_when_a_backend_cannot_be_built w e w1 :
  load_models (after_setup w) = (Raise e, w1) →
  main w = (Raise e, w1) ∧
  (∃ why, e = InvocationError why) ∧
  ∃ requests,
    events_since w w1 =
      [EvSetPageConfig "wide"; EvTitle "Data Day: Translation";
       EvSelectbox "Target" Language.registry 0;
       EvSelectbox "Target"
         (filter (λ lang, lang ≠ chosen_source w) Language.registry) 0] ++ requests ∧
    Forall client_request requests ∧
    shown None (events_since w w1) = [].
Proof.
  intros Hload. split; [by rewrite main_eq, Hload |].
  split; [by eapply load_models_raises |].
  destruct (appends_load_models (after_setup w)) as (requests & Htr & Hreq).
  rewrite Hload in Htr. simpl in Htr. unfold setup_events in Htr.
  rewrite <- app_assoc in Htr.
  exists requests. rewrite (events_since_app w w1 _ Htr).
  split; [done |]. split; [done |]. simpl.
  rewrite <- (app_nil_r requests). by apply shown_client_requests.
Qed.

(** *** Counting what a completed run did *)

Lemma count_events_cons p e evs :
  count_events p (e :: evs) = (if p e then 1 else 0) + count_events p evs.
Proof. unfold count_events. simpl. by destruct (p e). Qed.

Lemma remote_call_flags e :
  remote_call e → is_remote_call e = true ∧ is_clock_read e = false.
Proof. by destruct e. Qed.

Lemma sequential_run_counts text source_lang target_lang models w out w' :
  sequential_run text source_lang target_lang models w out w' →
  ∃ evs,
    trace w' = trace w ++ evs ∧
    count_events is_clock_read evs = 2 * length models ∧
    (count_events is_remote_call evs ≤ length models)%nat.
Proof.
  induction 1 as [w | model models w o name r w1 out w' Ho Hn Hp _ (evs & Htr & Hclock & Hremote)].
  - exists []. by rewrite app_nil_r.
  - destruct (one_predict model text source_lang target_lang (started name w))
      as [Hw1 | (e & He & Hw1)];
      rewrite Hp in Hw1; simpl in Hw1; subst w1; simpl in Htr.
    + exists ([EvHeader (header_of name); EvTime;
               EvSubheader r; EvTime;
               EvWrite (seconds_line (elapsed name w r (started name w)))] ++ evs).
      split; [by rewrite Htr, <- !app_assoc |].
      simpl. rewrite !count_events_cons. simpl. lia.
    + destruct (remote_call_flags e He) as (Hr & Hc).
      exists ([EvHeader (header_of name); EvTime; e;
               EvSubheader r; EvTime;
               EvWrite (seconds_line (elapsed name w r (record e (started name w))))]
              ++ evs).
      split; [by rewrite Htr, <- !app_assoc |].
      simpl. rewrite !count_events_cons, Hr, Hc. simpl. lia.
Qed.

(** X9: when the loop completes over any list of instances, also one that
    holds the same instance more than once, the page shows as many entries
    as the list has instances, headed by "Model " and the [endpoint_name] of
    each instance in list order; the clock was read exactly twice for each,
    and at most one request was sent for each. *)
Theorem completed_run_counts models text source_lang target_lang w w' :
  compare models text source_lang target_lang w = (Ret tt, w') →
  length (shown None (events_since w w')) = length models ∧
  map (λ panel, Some (fst (fst panel))) (shown None (events_since w w'))
    = map (λ model, header_of <$> (heap w !! model ≫= endpoint_name)) models ∧
  count_events is_clock_read (events_since w w') = 2 * length models ∧
  (count_events is_remote_call (events_since w w') ≤ length models)%nat.
Proof.
  intros Hcompare. apply compare_sequential in Hcompare as (out & Hrun).
  destruct (sequential_run_page _ _ _ _ _ _ _ Hrun) as (_ & evs & Htr & Hsh).
  destruct (sequential_run_counts _ _ _ _ _ _ _ Hrun) as (evs' & Htr' & Hclock & Hremote).
  assert (evs' = evs) as -> by (rewrite Htr in Htr'; by apply app_inv_head in Htr').
  rewrite (events_since_app w w' evs Htr).
  specialize (Hsh []). rewrite !app_nil_r in Hsh. rewrite Hsh.
  split; [| split; [| done]].
  - rewrite length_map. by eapply sequential_run_length.
  - transitivity (map (fmap header_of)
                    (map (λ model, heap w !! model ≫= endpoint_name) models));
      [| by rewrite map_map].
    rewrite (sequential_run_names _ _ _ _ _ _ _ Hrun), !map_map.
    apply map_ext. by intros [[name r] seconds].
Qed.

Lemma compare_one_sentinel c text source_lang target_lang model o d name w :
  c ∈ guarded →
  heap w !! model = Some o → class_of o = c → lang2iso o = Some d →
  endpoint_name o = Some name →
  d !! source_lang = None ∨ d !! target_lang = None →
  compare_one text source_lang target_lang model w
  = (Ret tt, finished name w not_supported (started name w)).
Proof.
  intros Hc Ho Hcls Hd Hn Habsent.
  rewrite (compare_one_eq _ _ _ _ _ _ _ Ho Hn).
  by rewrite (guarded_sentinel c model o d).
Qed.

(** X10: with the three configured backends and a pair that neither
    [FacebookMbart] nor [AwsTranslate] supports, once the call to
    [HelsinkiItc] has returned the loop runs to its end: the two other panels
    show "Language not supported", each with its own seconds line, and after
    the request of [HelsinkiItc] no request is sent. *)
Theorem unsupported_pair_does_not_stop_the_run
    a b c text source_lang target_lang w r w1 :
  constructed HelsinkiItc a w → constructed FacebookMbart b w →
  constructed AwsTranslate c w →
  FacebookMbart_lang2iso !! source_lang = None
    ∨ FacebookMbart_lang2iso !! target_lang = None →
  AwsTranslate_lang2iso !! source_lang = None
    ∨ AwsTranslate_lang2iso !! target_lang = None →
  predict a text source_lang target_lang (started "helsinki-nlp-opus-mt-itc-itc" w)
    = (Ret r, w1) →
  ∃ s1 s2 s3,
    compare [a; b; c] text source_lang target_lang w
    = (Ret tt,
       World (heap w)
         (trace w1 ++
          [EvSubheader r; EvTime; EvWrite (seconds_line s1);
           EvHeader "Model facebook-mbart-large-50-many-to-many-mmt"; EvTime;
           EvSubheader not_supported; EvTime; EvWrite (seconds_line s2);
           EvHeader "Model aws-translate"; EvTime;
           EvSubheader not_supported; EvTime; EvWrite (seconds_line s3)])).
Proof.
  intros (ha & Ha) (hb & Hb) (hc & Hc) Hmbart Haws Hp.
  pose proof (predict_heap a text source_lang target_lang
                (started "helsinki-nlp-opus-mt-itc-itc" w)) as Hheap.
  rewrite Hp in Hheap. simpl in Hheap.
  rewrite compare_cons, (compare_one_eq _ _ _ _ _ _ _ Ha eq_refl). simpl.
  rewrite Hp.
  set (w2 := finished _ w r w1).
  assert (heap w2 !! b = heap w !! b) as Hb2 by (simpl; by rewrite Hheap).
  rewrite Hb in Hb2.
  assert (FacebookMbart ∈ guarded) as Hgb
    by apply list_elem_of_further, list_elem_of_here.
  rewrite compare_cons,
    (compare_one_sentinel FacebookMbart _ _ _ _ _ _ _ _ Hgb Hb2 eq_refl eq_refl eq_refl Hmbart).
  set (w3 := finished _ w2 not_supported _).
  assert (heap w3 !! c = heap w !! c) as Hc3 by (simpl; by rewrite Hheap).
  rewrite Hc in Hc3.
  assert (AwsTranslate ∈ guarded) as Hgc
    by (do 2 apply list_elem_of_further; apply list_elem_of_here).
  rewrite compare_cons,
    (compare_one_sentinel AwsTranslate _ _ _ _ _ _ _ _ Hgc Hc3 eq_refl eq_refl eq_refl Haws).
  eexists _, _, _. unfold compare, finished, started. simpl. unfold ret.
  rewrite Hheap. unfold header_of. simpl.
  by rewrite <- !app_assoc.
Qed.

End DriverProperties.

(** ** The claims on concrete runs *)

Module Runs.
Import Demo.

Lemma unsupported_pair_returns_sentinel_witness :
  @predict externals 1 "Hola" Language.spanish Language.catalan (loaded externals)
  = (Ret not_supported, loaded externals).
Proof.
  apply (@unsupported_pair_returns_sentinel externals FacebookMbart).
  - apply list_elem_of_further, list_elem_of_here.
  - exists "sagemaker-runtime". vm_compute. reflexivity.
  - apply list_elem_of_here.
  - do 3 apply list_elem_of_further. apply list_elem_of_here.
  - right. vm_compute. reflexivity.
Defined.

Lemma code_maps_equal_table_witness :
  ∃ o d,
    heap (snd (@construct externals FacebookMbart empty)) !! 0 = Some o ∧
    class_of o = FacebookMbart ∧ lang2iso o = Some d ∧
    (∀ l, d !! registry_value l = table_section6 FacebookMbart l) ∧
    (∀ k, is_Some (d !! k) → ∃ l, k = registry_value l).
Proof.
  apply (@code_maps_equal_table externals FacebookMbart empty 0).
  - apply list_elem_of_further, list_elem_of_here.
  - vm_compute. reflexivity.
Defined.

Lemma HelsinkiItc_request_and_result_witness :
  fst (@predict externals 0 "Hola" Language.spanish Language.italian (loaded externals))
  = Ret (PStr "Ciao").
Proof.
  refine (proj2 (proj2 (proj2 (@HelsinkiItc_request_and_result externals
            0 (helsinki "sagemaker-runtime") HelsinkiItc_lang2iso "sagemaker-runtime"
            "helsinki-nlp-opus-mt-itc-itc" "ita" "Hola" Language.spanish Language.italian
            (dumps (PDict [("inputs", PStr ">>ita<< Hola")])) (loaded externals)
            _ _ _ _ _ _ _))
          _ _ _ _) (dumps ciao) _ _);
    vm_compute; reflexivity.
Defined.

Lemma FacebookMbart_request_and_result_witness :
  fst (@predict externals 1 "Hola" Language.spanish Language.italian (loaded externals))
  = Ret (PStr "Ciao").
Proof.
  refine (proj2 (@FacebookMbart_request_and_result externals
            1 (mbart "sagemaker-runtime") FacebookMbart_lang2iso "sagemaker-runtime"
            "facebook-mbart-large-50-many-to-many-mmt" "es_XX" "it_IT" "Hola"
            Language.spanish Language.italian _ (loaded externals)
            _ _ _ _ _ _ _ eq_refl)
          (dumps ciao) [("translation_text", PStr "Ciao")] [] (PStr "Ciao") _ _ _);
    vm_compute; reflexivity.
Defined.

Lemma AwsTranslate_request_and_result_witness :
  fst (@predict externals 2 "Hola" Language.spanish Language.portugees (loaded externals))
  = Ret (PStr "Olá").
Proof.
  refine (proj2 (proj2 (proj2 (proj2 (@AwsTranslate_request_and_result externals
            2 (aws "translate") AwsTranslate_lang2iso "translate" "es" "pt-PT" "Hola"
            Language.spanish Language.portugees (loaded externals)
            _ _ _ _ _ _))
          _ _ _ _)) _);
    vm_compute; reflexivity.
Defined.

Lemma compare_aborts_at_first_failure_witness :
  fst (@compare mbart_down [0; 1; 2] "Hola" Language.spanish Language.italian
         (loaded mbart_down))
  = Raise (InvocationError "unreachable").
Proof.
  refine (f_equal fst (proj1 (@compare_aborts_at_first_failure mbart_down
            "Hola" Language.spanish Language.italian [0] 1 (loaded mbart_down)
            (snd (@compare mbart_down [0] "Hola" Language.spanish Language.italian
                    (loaded mbart_down)))
            (mbart "sagemaker-runtime") "facebook-mbart-large-50-many-to-many-mmt"
            (InvocationError "unreachable")
            (snd (@compare mbart_down [0; 1] "Hola" Language.spanish Language.italian
                    (loaded mbart_down)))
            _ _ _ _) [2]));
    vm_compute; reflexivity.
Defined.

Lemma main_runs_backends_in_order_witness :
  ∃ models w1 out,
    @load_models externals (@after_setup externals empty) = (Ret models, w1) ∧
    trace (record text_area_event w1) = trace empty ++
      [EvSetPageConfig "wide"; EvTitle "Data Day: Translation";
       EvSelectbox "Target" Language.registry 0;
       EvSelectbox "Target"
         (filter (λ lang, lang ≠ @chosen_source externals empty) Language.registry) 0;
       EvBotoClient "sagemaker-runtime"; EvBotoClient "sagemaker-runtime";
       EvBotoClient "sagemaker-runtime"; EvBotoClient "translate";
       EvTextArea "Text to translate" default_text] ∧
    Forall2 (λ c model, constructed c model (record text_area_event w1))
      configured models ∧
    @sequential_run externals
      (@text_area_value externals (trace w1) "Text to translate" default_text)
      (@chosen_source externals empty) (@chosen_target externals empty) models
      (record text_area_event w1) out (snd (@main externals empty)) ∧
    map (λ e : entry, fst (fst e)) out = map default_endpoint_name configured ∧
    @shown None (events_since empty (snd (@main externals empty))) = map panel_of out.
Proof.
  apply (@main_runs_backends_in_order externals empty (snd (@main externals empty))).
  vm_compute. reflexivity.
Defined.

Lemma HelsinkiItc_has_no_guard_witness :
  @predict externals 0 "Hola" Language.spanish "Klingon" (loaded externals)
  = (Raise (KeyError (PStr "Klingon")), loaded externals).
Proof.
  refine (proj1 (@HelsinkiItc_has_no_guard externals
            0 (helsinki "sagemaker-runtime") HelsinkiItc_lang2iso "Hola"
            Language.spanish "Klingon" (loaded externals) _ _ _) _);
    vm_compute; reflexivity.
Defined.

(** C9 as it was stated fails: with an endpoint that translates to the words
    of the sentinel, [HelsinkiItc.predict] returns the sentinel string. *)
Lemma HelsinkiItc_returns_the_sentinel_text :
  heap (loaded parrot) !! 0 = Some (helsinki "sagemaker-runtime") ∧
  fst (@predict parrot 0 "Hola" Language.spanish Language.italian (loaded parrot))
  = Ret not_supported.
Proof. split; vm_compute; reflexivity. Qed.

Lemma FacebookLocalMbart_passes_language_name_witness :
  @predict externals 0 "Hola" Language.spanish Language.italian (local externals)
  = (Ret (PStr "Italian"),
     record (EvEasyNMTTranslate "mbart50_m2m" "Hola" "es" "Italian") (local externals)).
Proof.
  refine (proj1 (@FacebookLocalMbart_passes_language_name externals
            0 (local_mbart "sagemaker-runtime") FacebookLocalMbart_lang2iso "mbart50_m2m"
            "es" "it" "Hola" Language.spanish Language.italian (local externals)
            _ _ _ _ _ _));
    vm_compute; reflexivity.
Defined.

End Runs.

(** ** The further properties on concrete runs *)

Module MoreRuns.
Import Demo.

Lemma guarded_predict_unsupported_witness :
  @predict externals 0 "Hola" Language.spanish Language.catalan (local externals)
  = (Ret not_supported, local externals).
Proof.
  apply (@guarded_predict_unsupported externals FacebookLocalMbart 0
           (local_mbart "sagemaker-runtime") FacebookLocalMbart_lang2iso).
  - apply list_elem_of_here.
  - vm_compute. reflexivity.
  - reflexivity.
  - reflexivity.
  - right. vm_compute. reflexivity.
Defined.

Lemma endpoint_backends_failure_modes_witness :
  ∃ body,
    snd (@predict mbart_down 1 "Hola" Language.spanish Language.italian (loaded mbart_down))
    = record (EvInvokeEndpoint "sagemaker-runtime" "facebook-mbart-large-50-many-to-many-mmt"
                body "application/json" "application/json") (loaded mbart_down) ∧
    fst (@predict mbart_down 1 "Hola" Language.spanish Language.italian (loaded mbart_down))
    = Raise (InvocationError "unreachable").
Proof.
  destruct (@endpoint_backends_failure_modes mbart_down 1 (mbart "sagemaker-runtime")
              FacebookMbart_lang2iso "sagemaker-runtime"
              "facebook-mbart-large-50-many-to-many-mmt" "es_XX" "it_IT" "Hola"
              Language.spanish Language.italian (loaded mbart_down))
    as (body & Hsent & Hfail & _).
  - vm_compute. reflexivity.
  - right. reflexivity.
  - reflexivity.
  - reflexivity.
  - reflexivity.
  - vm_compute. reflexivity.
  - vm_compute. reflexivity.
  - exists body. split; [exact Hsent |]. apply Hfail. reflexivity.
Defined.

Lemma AwsTranslate_failure_modes_witness :
  @predict service_down 2 "Hola" Language.spanish Language.catalan (loaded service_down)
  = (Raise (InvocationError "unreachable"),
     record (EvTranslateText "translate" "Hola" "es" "ca") (loaded service_down)).
Proof.
  refine (proj1 (@AwsTranslate_failure_modes service_down 2 (aws "translate")
            AwsTranslate_lang2iso "translate" "es" "ca" "Hola"
            Language.spanish Language.catalan (loaded service_down) _ _ _ _ _ _)
          "unreachable" _);
    vm_compute; reflexivity.
Defined.

Lemma construct_adds_one_instance_witness :
  heap empty !! 0 = None ∧
  constructed AwsTranslate 0 (snd (@construct externals AwsTranslate empty)) ∧
  length (heap (snd (@construct externals AwsTranslate empty))) = S (length (heap empty)) ∧
  (∀ other, other < length (heap empty) →
     heap (snd (@construct externals AwsTranslate empty)) !! other = heap empty !! other) ∧
  trace (snd (@construct externals AwsTranslate empty))
    = trace empty ++ creation_events AwsTranslate.
Proof.
  apply (@construct_adds_one_instance externals AwsTranslate empty 0).
  - do 2 apply list_elem_of_further. apply list_elem_of_here.
  - vm_compute. reflexivity.
Defined.

Lemma AwsTranslate_keeps_the_translate_client_witness :
  ∃ unused handle,
    @boto3_client externals (trace empty) "sagemaker-runtime" = Answer unused ∧
    @boto3_client externals (trace empty ++ [EvBotoClient "sagemaker-runtime"]) "translate"
      = Answer handle ∧
    heap (snd (@construct externals AwsTranslate empty)) !! 0 ≫= client = Some handle.
Proof.
  apply (proj1 (@AwsTranslate_keeps_the_translate_client externals empty) 0).
  vm_compute. reflexivity.
Defined.


Lemma main_offers_the_other_languages_witness :
  length (filter (λ lang, lang ≠ @chosen_source externals empty) Language.registry) = 4.
Proof.
  apply (proj2 (proj2 (proj2 (@main_offers_the_other_languages externals empty)))).
  vm_compute. apply list_elem_of_here.
Defined.

Lemma completed_run_counts_witness :
  length (@shown None (events_since (loaded externals)
            (snd (@compare externals [0; 1; 1; 2] "Hola" Language.spanish Language.italian
                    (loaded externals))))) = 4 ∧
  count_events is_clock_read (events_since (loaded externals)
    (snd (@compare externals [0; 1; 1; 2] "Hola" Language.spanish Language.italian
            (loaded externals)))) = 8.
Proof.
  destruct (@completed_run_counts externals [0; 1; 1; 2] "Hola" Language.spanish
              Language.italian (loaded externals)
              (snd (@compare externals [0; 1; 1; 2] "Hola" Language.spanish
                      Language.italian (loaded externals))))
    as (Hshown & _ & Hclock & _).
  - vm_compute. reflexivity.
  - split; [exact Hshown | exact Hclock].
Defined.

Lemma unsupported_pair_does_not_stop_the_run_witness :
  ∃ s1 s2 s3,
    @compare externals [0; 1; 2] "Hola" Language.spanish Language.galician
      (loaded externals)
    = (Ret tt,
       World (heap (loaded externals))
         (trace (snd (@predict externals 0 "Hola" Language.spanish Language.galician
                        (started "helsinki-nlp-opus-mt-itc-itc" (loaded externals)))) ++
          [EvSubheader (PStr "Ciao"); EvTime; EvWrite (seconds_line s1);
           EvHeader "Model facebook-mbart-large-50-many-to-many-mmt"; EvTime;
           EvSubheader not_supported; EvTime; EvWrite (seconds_line s2);
           EvHeader "Model aws-translate"; EvTime;
           EvSubheader not_supported; EvTime; EvWrite (seconds_line s3)])).
Proof.
  apply (@unsupported_pair_does_not_stop_the_run externals 0 1 2 "Hola"
           Language.spanish Language.galician (loaded externals)).
  - exists "sagemaker-runtime". vm_compute. reflexivity.
  - exists "sagemaker-runtime". vm_compute. reflexivity.
  - exists "translate". vm_compute. reflexivity.
  - right. vm_compute. reflexivity.
  - right. vm_compute. reflexivity.
  - vm_compute. reflexivity.
Defined.

Lemma guarded_request_iff_supported_witness :
  ∃ e, remote_call e ∧
       snd (@predict externals 1 "Hola" Language.spanish Language.italian (loaded externals))
       = record e (loaded externals).
Proof.
  apply (proj2 (@guarded_request_iff_supported externals FacebookMbart 1
                  (mbart "sagemaker-runtime") FacebookMbart_lang2iso "sagemaker-runtime"
                  "facebook-mbart-large-50-many-to-many-mmt" "Hola"
                  Language.spanish Language.italian (loaded externals)
                  (list_elem_of_further _ _ _ (list_elem_of_here _ _))
                  eq_refl eq_refl eq_refl eq_refl eq_refl
                  (λ Hlocal, match Hlocal with end))).
  - exists "es_XX". vm_compute. reflexivity.
  - exists "it_IT". vm_compute. reflexivity.
Defined.

Lemma main_aborts_when_a_backend_cannot_be_built_witness :
  fst (@main no_credentials empty) = Raise (InvocationError "no credentials").
Proof.
  refine (f_equal fst (proj1 (@main_aborts_when_a_backend_cannot_be_built no_credentials
            empty (InvocationError "no credentials")
            (snd (@load_models no_credentials (@after_setup no_credentials empty))) _))).
  vm_compute. reflexivity.
Defined.

End MoreRuns.
